(** * The interruption filter of the voice agent

    A shallow embedding of [test_filter_logic] (test_interruption_logic.py)
    and of the word lists of interruption_config.py, with the properties the
    specification states about the classifier.

    A transcript is a Python [str].  It is modelled as a [string] of code
    points below 256 (the range of [ascii]); on that range [lower], [isspace]
    and [repr] below are the ones of Python's [str]. *)

From Stdlib Require Import String Ascii List Bool ZArith Lia.
From stdpp Require Import base decidable countable gmap sets strings pretty.
Import ListNotations.

Local Open Scope Z_scope.
Local Open Scope string_scope.

(** ** Python's [str] operations used by the filter *)

Module PyStr.

Definition ord (c : ascii) : nat := nat_of_ascii c.

(** [str.isspace] on one character: TAB, LF, VT, FF, CR, FS, GS, RS, US,
    SPACE, NEL and NBSP. *)
Definition isspace (c : ascii) : bool :=
  existsb (Nat.eqb (ord c)) [9; 10; 11; 12; 13; 28; 29; 30; 31; 32; 133; 160]%nat.

(** [str.lower] on one character: A-Z, and the capital letters of the
    Latin-1 block (0xC0-0xDE but the multiplication sign 0xD7). *)
Definition lower_char (c : ascii) : ascii :=
  let n := ord c in
  if ((65 <=? n) && (n <=? 90))%nat
     || ((192 <=? n) && (n <=? 222) && negb (n =? 215))%nat
  then ascii_of_nat (n + 32) else c.

Fixpoint lower (s : string) : string :=
  match s with
  | EmptyString => EmptyString
  | String c s' => String (lower_char c) (lower s')
  end.

Definition is_empty (s : string) : bool :=
  match s with EmptyString => true | String _ _ => false end.

(** Truthiness of a [str]: non-empty. *)
Definition truthy (s : string) : bool := negb (is_empty s).

Definition flush (word : string) : list string :=
  if is_empty word then [] else [word].

(** [s.split()] with no argument scans [s] once; [word] is the run of
    non-whitespace characters read since the last whitespace. *)
Fixpoint split_from (word : string) (s : string) : list string :=
  match s with
  | EmptyString => flush word
  | String c s' =>
      if isspace c then (flush word ++ split_from EmptyString s')%list
      else split_from (word +:+ String c EmptyString) s'
  end.

Definition split (s : string) : list string := split_from EmptyString s.

Fixpoint lstrip_by (drop : ascii -> bool) (s : string) : string :=
  match s with
  | EmptyString => EmptyString
  | String c s' => if drop c then lstrip_by drop s' else s
  end.

Fixpoint rstrip_by (drop : ascii -> bool) (s : string) : string :=
  match s with
  | EmptyString => EmptyString
  | String c s' =>
      let r := rstrip_by drop s' in
      if is_empty r && drop c then EmptyString else String c r
  end.

Definition strip_by (drop : ascii -> bool) (s : string) : string :=
  rstrip_by drop (lstrip_by drop s).

Fixpoint char_in (c : ascii) (chars : string) : bool :=
  match chars with
  | EmptyString => false
  | String d chars' => Ascii.eqb c d || char_in c chars'
  end.

(** [s.strip()] and [s.strip(chars)]. *)
Definition strip_ws (s : string) : string := strip_by isspace s.
Definition strip (chars : string) (s : string) : string :=
  strip_by (fun c => char_in c chars) s.

(** *** [repr] of a [str] and of a [list] of [str] (used by the f-strings) *)

Definition dquote : ascii := "034"%char.
Definition squote : ascii := "039"%char.
Definition backslash : ascii := "092"%char.

Definition isprintable (c : ascii) : bool :=
  let n := ord c in
  ((32 <=? n) && (n <? 127) || (161 <=? n) && negb (n =? 173))%nat.

Definition hex_digit (n : nat) : ascii :=
  nth n (list_ascii_of_string "0123456789abcdef") "0"%char.

Definition repr_quote (s : string) : ascii :=
  if char_in squote s && negb (char_in dquote s) then dquote else squote.

Definition repr_char (quote : ascii) (c : ascii) : string :=
  if Ascii.eqb c quote || Ascii.eqb c backslash then String backslash (String c EmptyString)
  else if (ord c =? 9)%nat then "\t"
  else if (ord c =? 10)%nat then "\n"
  else if (ord c =? 13)%nat then "\r"
  else if isprintable c then String c EmptyString
  else "\x" +:+ String (hex_digit (ord c / 16)) (String (hex_digit (ord c mod 16)) EmptyString).

Fixpoint repr_body (quote : ascii) (s : string) : string :=
  match s with
  | EmptyString => EmptyString
  | String c s' => repr_char quote c +:+ repr_body quote s'
  end.

Definition repr (s : string) : string :=
  let q := repr_quote s in
  String q (repr_body q s +:+ String q EmptyString).

Fixpoint join (sep : string) (l : list string) : string :=
  match l with
  | [] => EmptyString
  | [x] => x
  | x :: l' => x +:+ sep +:+ join sep l'
  end.

Definition repr_list (l : list string) : string :=
  "[" +:+ join ", " (map repr l) +:+ "]".

End PyStr.

(** ** interruption_config.py, mirrored in test_interruption_logic.py *)

Definition IGNORE_WORDS : gset string :=
  list_to_set
    ["yeah"; "ok"; "okay"; "hmm"; "uh-huh"; "right"; "yep"; "mmhmm";
     "sure"; "understood"; "got it"; "uh"; "um"; "ah"; "yeah yeah";
     "absolutely"; "definitely"; "certainly"; "sounds good"; "i see";
     "i know"; "i get it"; "makes sense"; "got ya"; "no kidding";
     "you bet"; "for sure"; "all right"; "alright"].

Definition INTERRUPT_WORDS : gset string :=
  list_to_set
    ["stop"; "wait"; "no"; "hold"; "cancel"; "pause";
     "hold on"; "wait wait"; "one second"; "one sec"; "just a sec";
     "hang on"; "slow down"; "repeat that"; "what"; "sorry"; "excuse me";
     "never mind"; "never"; "don't"; "don't say that"].

Definition FILLER_WORDS : gset string :=
  list_to_set
    ["but"; "and"; "or"; "like"; "you know"; "i mean"; "actually";
     "well"; "so"; "anyway"; "basically"; "essentially"; "practically";
     "kind of"; "sort of"; "somehow"; "somewhat"; "quite"; "really";
     "very"; "pretty"; "honestly"; "seriously"; "literally"].

Definition MICRO_DEBOUNCE_MS : Z := 150.

(** The module-level names of test_interruption_logic.py: the three word
    sets and [logger] (bound to a logger name by [setup_logging]). *)
Record Globals := {
  g_IGNORE_WORDS : gset string;
  g_INTERRUPT_WORDS : gset string;
  g_FILLER_WORDS : gset string;
  g_logger : option string
}.

(** The module namespace once the module body has run. *)
Definition module_globals : Globals :=
  {| g_IGNORE_WORDS := IGNORE_WORDS;
     g_INTERRUPT_WORDS := INTERRUPT_WORDS;
     g_FILLER_WORDS := FILLER_WORDS;
     g_logger := None |}.

(** ** [test_filter_logic] *)

(** The characters stripped from both ends of each piece on line 64: the
    period, comma, exclamation and question marks, semicolon, colon, round
    and square brackets, and the double and single quotes. *)
Definition PUNCTUATION : string :=
  ".,!?;:()[]" +:+ String PyStr.dquote (String PyStr.squote EmptyString).

(** The set literal of line 67. *)
Definition STOP_WORDS : gset string :=
  list_to_set ["a"; "an"; "the"; "to"; "in"; "on"; "at"].

(** Truthiness of a [list]: [not tokens] is [is_nil tokens]. *)
Definition is_nil (l : list string) : bool :=
  match l with [] => true | _ :: _ => false end.

Definition member (t : string) (s : gset string) : bool := bool_decide (t ∈ s).

(** Lines 64 and 67: the two list comprehensions that build [tokens]. *)
Definition tokens_of (transcript : string) : list string :=
  let tokens :=
    map (PyStr.strip PUNCTUATION)
        (List.filter (fun t => PyStr.truthy (PyStr.strip_ws t))
                     (PyStr.split (PyStr.lower transcript))) in
  List.filter (fun t => PyStr.truthy t && negb (member t STOP_WORDS)) tokens.

(** The same two comprehensions over the pieces of the split. *)
Definition tokens_of_pieces (pieces : list string) : list string :=
  List.filter (fun t => PyStr.truthy t && negb (member t STOP_WORDS))
    (map (PyStr.strip PUNCTUATION)
         (List.filter (fun t => PyStr.truthy (PyStr.strip_ws t)) pieces)).

(** The function reads the three word sets from the module namespace [G];
    it returns the pair [(action, reason)]. *)
Definition test_filter_logic (G : Globals) (transcript : string) (agent_speaking : bool)
  : string * string :=
  let tokens := tokens_of transcript in
  if is_nil tokens
  then ("SWALLOW", "No tokens (VAD blip)")
  else if negb agent_speaking
  then ("RESPOND", "Agent is silent - treat as normal input")
  else
    let has_interrupt_words := existsb (fun tok => member tok (g_INTERRUPT_WORDS G)) tokens in
    if has_interrupt_words
    then ("INTERRUPT",
          "Contains interrupt words: " +:+
          PyStr.repr_list (List.filter (fun t => member t (g_INTERRUPT_WORDS G)) tokens))
    else
      let acceptable_tokens := g_IGNORE_WORDS G ∪ g_FILLER_WORDS G in
      let has_only_acceptable := forallb (fun tok => member tok acceptable_tokens) tokens in
      if has_only_acceptable
      then ("SWALLOW", "Only passive/filler words: " +:+ PyStr.repr_list tokens)
      else ("INTERRUPT", "Mixed content detected: " +:+ PyStr.repr_list tokens).

Definition action (r : string * string) : string := fst r.
Definition reason (r : string * string) : string := snd r.

(** ** A session: calls of the filter over time

    The filter is called once per finalized transcript, at some time of the
    wall clock, in a process whose module namespace other functions of the
    module may have touched: [setup_logging] binds [logger],
    [run_test_suite] is a sequence of calls, [show_configuration] only
    reads the word sets. *)

Record World := {
  now_ms : Z;
  globals : Globals
}.

Inductive Event :=
| Elapse (ms : Z)
| SetupLogging
| Invoke (transcript : string) (agent_speaking : bool).

(** [setup_logging] rebinds the global [logger] and nothing else. *)
Definition setup_logging (G : Globals) : Globals :=
  {| g_IGNORE_WORDS := g_IGNORE_WORDS G;
     g_INTERRUPT_WORDS := g_INTERRUPT_WORDS G;
     g_FILLER_WORDS := g_FILLER_WORDS G;
     g_logger := Some "InterruptionHandler" |}.

(** *** The function as Python runs it

    A Python function runs in a world that it can read and change: the wall
    clock and the module namespace ([global] assignments, and updates in
    place of the sets the names are bound to).  [Py A] is a computation that
    gives an [A] and the world it leaves. *)
Definition Py (A : Type) : Type := World -> A * World.

Definition py_ret {A : Type} (a : A) : Py A := fun w => (a, w).

Definition py_bind {A B : Type} (m : Py A) (k : A -> Py B) : Py B :=
  fun w => let '(a, w') := m w in k a w'.

(** Reading a global name: the value the namespace binds it to at that
    moment. *)
Definition load_global {A : Type} (name : Globals -> A) : Py A :=
  fun w => (name (globals w), w).

(** [tok in NAME] for a global set [NAME]. *)
Definition py_in (tok : string) (name : Globals -> gset string) : Py bool :=
  py_bind (load_global name) (fun s => py_ret (member tok s)).

(** [any(test(tok) for tok in tokens)]: the generator is consumed up to the
    first true. *)
Fixpoint py_any (test : string -> Py bool) (tokens : list string) : Py bool :=
  match tokens with
  | [] => py_ret false
  | tok :: tokens' =>
      py_bind (test tok) (fun b => if b then py_ret true else py_any test tokens')
  end.

(** The list comprehension with a condition, [[t for t in tokens if test(t)]]. *)
Fixpoint py_select (test : string -> Py bool) (tokens : list string) : Py (list string) :=
  match tokens with
  | [] => py_ret []
  | t :: tokens' =>
      py_bind (test t) (fun b =>
      py_bind (py_select test tokens') (fun rest =>
      py_ret (if b then t :: rest else rest)))
  end.

(** [test_filter_logic] statement by statement: the names [INTERRUPT_WORDS],
    [IGNORE_WORDS] and [FILLER_WORDS] are looked up in the namespace each
    time they are evaluated, and line 84 builds a new set. *)
Definition test_filter_logic_py (transcript : string) (agent_speaking : bool)
  : Py (string * string) :=
  let tokens := tokens_of transcript in
  if is_nil tokens
  then py_ret ("SWALLOW", "No tokens (VAD blip)")
  else if negb agent_speaking
  then py_ret ("RESPOND", "Agent is silent - treat as normal input")
  else
    py_bind (py_any (fun tok => py_in tok g_INTERRUPT_WORDS) tokens)
      (fun has_interrupt_words =>
    if has_interrupt_words
    then
      py_bind (py_select (fun t => py_in t g_INTERRUPT_WORDS) tokens) (fun found =>
      py_ret ("INTERRUPT", "Contains interrupt words: " +:+ PyStr.repr_list found))
    else
      py_bind (load_global g_IGNORE_WORDS) (fun ignore_words =>
      py_bind (load_global g_FILLER_WORDS) (fun filler_words =>
      let acceptable_tokens := ignore_words ∪ filler_words in
      let has_only_acceptable :=
        forallb (fun tok => member tok acceptable_tokens) tokens in
      if has_only_acceptable
      then py_ret ("SWALLOW", "Only passive/filler words: " +:+ PyStr.repr_list tokens)
      else py_ret ("INTERRUPT", "Mixed content detected: " +:+ PyStr.repr_list tokens)))).

(** A call in a world: the result, and the world the call leaves. *)
Definition call (w : World) (transcript : string) (agent_speaking : bool)
  : (string * string) * World :=
  test_filter_logic_py transcript agent_speaking w.

Definition elapse (ms : Z) (w : World) : World :=
  {| now_ms := now_ms w + ms; globals := globals w |}.

(** One event; a call is logged with the time it was made at. *)
Definition step (w : World) (e : Event) : World * list (Z * (string * string)) :=
  match e with
  | Elapse ms => (elapse ms w, [])
  | SetupLogging => ({| now_ms := now_ms w; globals := setup_logging (globals w) |}, [])
  | Invoke transcript agent_speaking =>
      let '(r, w') := call w transcript agent_speaking in (w', [(now_ms w, r)])
  end.

Fixpoint run (w : World) (events : list Event) : World * list (Z * (string * string)) :=
  match events with
  | [] => (w, [])
  | e :: events' =>
      let '(w1, out1) := step w e in
      let '(w2, out2) := run w1 events' in
      (w2, (out1 ++ out2)%list)
  end.

(** The world when the session starts. *)
Definition initial_world : World := {| now_ms := 0; globals := module_globals |}.

(** ** What the claims speak of *)

Definition is_interrupt (G : Globals) (tok : string) : Prop := tok ∈ g_INTERRUPT_WORDS G.
Definition is_ignore (G : Globals) (tok : string) : Prop := tok ∈ g_IGNORE_WORDS G.
Definition is_filler (G : Globals) (tok : string) : Prop := tok ∈ g_FILLER_WORDS G.
Definition is_acceptable (G : Globals) (tok : string) : Prop :=
  is_ignore G tok \/ is_filler G tok.

(** A phrase of several words has a space in it. *)
Definition multi_word (phrase : string) : bool := PyStr.char_in " "%char phrase.

Definition single_words (s : gset string) : gset string :=
  filter (fun phrase => multi_word phrase = false) s.

(** The namespace with every multi-word entry removed from the three sets. *)
Definition without_multi_word (G : Globals) : Globals :=
  {| g_IGNORE_WORDS := single_words (g_IGNORE_WORDS G);
     g_INTERRUPT_WORDS := single_words (g_INTERRUPT_WORDS G);
     g_FILLER_WORDS := single_words (g_FILLER_WORDS G);
     g_logger := g_logger G |}.

(** Two namespaces that bind the three word sets to the same sets. *)
Definition same_word_sets (G G' : Globals) : Prop :=
  g_IGNORE_WORDS G = g_IGNORE_WORDS G'
  /\ g_INTERRUPT_WORDS G = g_INTERRUPT_WORDS G'
  /\ g_FILLER_WORDS G = g_FILLER_WORDS G'.

(** [all_chars p s]: every character of [s] satisfies [p]. *)
Fixpoint all_chars (p : ascii -> bool) (s : string) : bool :=
  match s with
  | EmptyString => true
  | String c s' => p c && all_chars p s'
  end.

Definition no_space (s : string) : bool := all_chars (fun c => negb (PyStr.isspace c)) s.

(** The debounce law read on the simulation alone, over two calls of one
    session [d] milliseconds apart, both made while the agent speaks; the
    first one has tokens, so that it is decided by the speaking-agent
    rules. *)
Definition debounce_law : Prop :=
  forall (w : World) (d : Z) (transcript1 transcript2 : string),
    tokens_of transcript1 <> [] ->
    0 <= d < MICRO_DEBOUNCE_MS ->
    let '(r1, w1) := call w transcript1 true in
    let '(r2, _) := call (elapse d w1) transcript2 true in
    action r1 = action (test_filter_logic (globals w) transcript1 true)
    /\ action r2 = "SWALLOW".

(** Modelled from the spec: the debounce gate of the classifier (section 3,
    DebounceState, and section 4.2, step 6).  The classifier that has the
    gate is in agent_activity.py, which is not among the sources: they hold
    its simulation without a clock, [test_filter_logic], and the constant
    [MICRO_DEBOUNCE_MS].  Steps 1 to 5 are [test_filter_logic]. *)
Inductive DebounceState :=
| Idle
| Cooling (lastDecisionTime : Z).

(** Modelled from the spec: the elapsed time since the last recorded
    speaking-context decision is less than the debounce constant. *)
Definition within_debounce (debounce : DebounceState) (now : Z) : bool :=
  match debounce with
  | Idle => false
  | Cooling lastDecisionTime => (now - lastDecisionTime <? MICRO_DEBOUNCE_MS)%Z
  end.

(** Modelled from the spec: the reason of a gated result; the number is read
    as the elapsed time. *)
Definition debounced_reason (debounce : DebounceState) (now : Z) : string :=
  match debounce with
  | Idle => EmptyString
  | Cooling lastDecisionTime =>
      "debounced: duplicate within " +:+ pretty (A:=Z) (now - lastDecisionTime)
      +:+ "ms of prior decision"
  end.

(** Modelled from the spec: [Classify(transcript, agentSpeaking, now,
    debounce)].  The empty-result rule and the silent-agent rule are not
    gated and leave the state as it is; an outcome of the speaking-agent
    rules inside the window is overridden to Swallow, outside of it [now]
    is recorded.  Resetting the state when the agent turns silent is left
    to the owner of the state: a new speaking epoch starts from [Idle]. *)
Definition Classify (G : Globals) (transcript : string) (agentSpeaking : bool)
           (now : Z) (debounce : DebounceState) : (string * string) * DebounceState :=
  let result := test_filter_logic G transcript agentSpeaking in
  if is_nil (tokens_of transcript) || negb agentSpeaking
  then (result, debounce)
  else if within_debounce debounce now
  then (("SWALLOW", debounced_reason debounce now), debounce)
  else (result, Cooling now).

(** Further calls of one speaking epoch, each with its transcript and its
    time: the state they leave. *)
Fixpoint classify_speaking (G : Globals) (calls : list (string * Z))
         (debounce : DebounceState) : DebounceState :=
  match calls with
  | [] => debounce
  | (transcript, now) :: calls' =>
      classify_speaking G calls' (snd (Classify G transcript true now debounce))
  end.

(** ** [run_test_suite], [show_configuration] and the main block

    The model keeps what a caller gets: the counters of the loop, the value
    returned, the exit code, and the exceptions the code raises by itself on
    an open standard output: AttributeError at the first use of [logger]
    while it is [None], UnicodeEncodeError at a [print] of a character that
    the encoding of the standard output does not have, ZeroDivisionError in
    the success rate of an empty list of cases.  The text handed to the
    logger is not modelled (its handlers do not raise), nor are failures of
    the file system or of a closed stream. *)

(** One dictionary of the list [test_cases]. *)
Record TestCase := {
  tc_name : string;
  tc_transcript : string;
  tc_agent_speaking : bool;
  tc_expected_action : string;
  tc_description : string
}.

Definition test_cases : list TestCase :=
  [ {| tc_name := "Scenario 1: Agent Speaking + Multiple Filler Words";
       tc_transcript := "Yeah... okay... uh-huh";
       tc_agent_speaking := true;
       tc_expected_action := "SWALLOW";
       tc_description := "Agent explaining concept, user provides backchannel feedback" |};
    {| tc_name := "Scenario 2: Agent Silent + Affirmation";
       tc_transcript := "Yeah";
       tc_agent_speaking := false;
       tc_expected_action := "RESPOND";
       tc_description := "Agent asks question and waits, user responds" |};
    {| tc_name := "Scenario 3: Agent Speaking + Command Word";
       tc_transcript := "Stop";
       tc_agent_speaking := true;
       tc_expected_action := "INTERRUPT";
       tc_description := "Agent counting, user says stop" |};
    {| tc_name := "Scenario 4: Agent Speaking + Mixed Input";
       tc_transcript := "Yeah but wait a second";
       tc_agent_speaking := true;
       tc_expected_action := "INTERRUPT";
       tc_description := "Mixed filler + command words" |};
    {| tc_name := "Scenario 5: Agent Speaking + Multiple Commands";
       tc_transcript := "No wait hold on";
       tc_agent_speaking := true;
       tc_expected_action := "INTERRUPT";
       tc_description := "Multiple interrupt words" |};
    {| tc_name := "Scenario 6: Agent Speaking + Partial Sentence";
       tc_transcript := "Right right, okay";
       tc_agent_speaking := true;
       tc_expected_action := "SWALLOW";
       tc_description := "Repetitive filler words" |};
    {| tc_name := "Scenario 7: Agent Silent + Command";
       tc_transcript := "Cancel that";
       tc_agent_speaking := false;
       tc_expected_action := "RESPOND";
       tc_description := "Command while agent is silent" |};
    {| tc_name := "Scenario 8: Empty Input (VAD Blip)";
       tc_transcript := EmptyString;
       tc_agent_speaking := true;
       tc_expected_action := "SWALLOW";
       tc_description := "False positive from VAD" |};
    {| tc_name := "Scenario 9: Punctuation Only";
       tc_transcript := "... ... ...";
       tc_agent_speaking := true;
       tc_expected_action := "SWALLOW";
       tc_description := "Only punctuation (noise)" |};
    {| tc_name := "Scenario 10: Complex Mixed Sentence";
       tc_transcript := "Yeah I see, hmm, but wait what about that";
       tc_agent_speaking := true;
       tc_expected_action := "INTERRUPT";
       tc_description := "Complex sentence with mixed content" |} ].

(** A call returns a value or raises an exception, named by its class. *)
Inductive Outcome (A : Type) : Type :=
| Returned (value : A)
| Raised (exception : string).

Arguments Returned {A} value.
Arguments Raised {A} exception.

(** The two counters of the loop. *)
Record Tally := {
  passed : nat;
  failed : nat
}.

(** [passed_test = action == expected] for one case. *)
Definition passed_test (G : Globals) (test : TestCase) : bool :=
  let '(action, reason) :=
    test_filter_logic G (tc_transcript test) (tc_agent_speaking test) in
  String.eqb action (tc_expected_action test).

(** The body of the loop: one of the two counters goes up by one. *)
Definition run_case (G : Globals) (tally : Tally) (test : TestCase) : Tally :=
  if passed_test G test
  then {| passed := passed tally + 1; failed := failed tally |}
  else {| passed := passed tally; failed := failed tally + 1 |}.

Definition run_cases (G : Globals) (cases : list TestCase) : Tally :=
  fold_left (run_case G) cases {| passed := 0; failed := 0 |}.

(** *** Writing to the standard output *)

(** A character handed to [print]: a code point below 256, or one of the two
    status marks of lines 202, 206, 237 and 240 (U+2713 and U+2717). *)
Inductive Glyph :=
| Latin (c : ascii)
| CheckMark
| BallotX.

Definition to_text (s : string) : list Glyph := map Latin (list_ascii_of_string s).

(** The standard output, as far as the code can tell: the characters that
    its encoding can encode (its error handler is the strict one). *)
Definition Stdout : Type := Glyph -> bool.

(** An encoding that has every character, like UTF-8. *)
Definition encodes_all (out : Stdout) : Prop := forall g, out g = true.

(** An encoding that has every code point below 256. *)
Definition encodes_latin (out : Stdout) : Prop := forall c, out (Latin c) = true.

Definition and_then {A B : Type} (m : Outcome A) (k : A -> Outcome B) : Outcome B :=
  match m with
  | Returned a => k a
  | Raised e => Raised e
  end.

Definition line_feed : ascii := "010"%char.

(** [sys.stdout.write(text)] raises when a character cannot be encoded. *)
Definition write (out : Stdout) (text : list Glyph) : Outcome unit :=
  if forallb out text then Returned tt else Raised "UnicodeEncodeError".

(** [print(text)] writes the text, then the line feed; [print()] writes the
    line feed alone. *)
Definition print (out : Stdout) (text : list Glyph) : Outcome unit :=
  and_then (write out text) (fun _ => write out [Latin line_feed]).

Definition print_str (out : Stdout) (s : string) : Outcome unit :=
  print out (to_text s).

Definition print_empty (out : Stdout) : Outcome unit :=
  write out [Latin line_feed].

(** A call of a method of [logger]: AttributeError while it is [None]. *)
Definition use_logger (G : Globals) : Outcome unit :=
  match g_logger G with
  | None => Raised "AttributeError"
  | Some _ => Returned tt
  end.

(** ["=" * 80] *)
Definition rule_80 : string := String.concat EmptyString (List.repeat "=" 80).

Definition str_bool (b : bool) : string := if b then "True" else "False".

(** [status], line 202 or 206. *)
Definition status_text (passed_test : bool) : list Glyph :=
  if passed_test then CheckMark :: to_text " PASS" else BallotX :: to_text " FAIL".

(** One turn of the loop, lines 196 to 223, for the [i]-th case: the
    counters it leaves. *)
Definition run_iteration (out : Stdout) (G : Globals) (i : nat) (tally : Tally)
           (test : TestCase) : Outcome Tally :=
  let '(action, reason) :=
    test_filter_logic G (tc_transcript test) (tc_agent_speaking test) in
  let expected := tc_expected_action test in
  let tally' := run_case G tally test in
  and_then (print_str out ("Test " +:+ pretty (A:=nat) i +:+ ": " +:+ tc_name test)) (fun _ =>
  and_then (print_str out ("  Description: " +:+ tc_description test)) (fun _ =>
  and_then (print_str out ("  Transcript: '" +:+ tc_transcript test +:+ "'")) (fun _ =>
  and_then (print_str out ("  Agent Speaking: " +:+ str_bool (tc_agent_speaking test)))
    (fun _ =>
  and_then (print_str out ("  Expected: " +:+ expected)) (fun _ =>
  and_then (print_str out ("  Got: " +:+ action)) (fun _ =>
  and_then (print_str out ("  Reason: " +:+ reason)) (fun _ =>
  and_then (print out (to_text "  Result: " ++ status_text (passed_test G test))%list)
    (fun _ =>
  and_then (print_empty out) (fun _ =>
  Returned tally'))))))))).

(** [for i, test in enumerate(test_cases, 1)], from the [i]-th turn on. *)
Fixpoint run_loop (out : Stdout) (G : Globals) (i : nat) (cases : list TestCase)
         (tally : Tally) : Outcome Tally :=
  match cases with
  | [] => Returned tally
  | test :: cases' =>
      and_then (run_iteration out G i tally test) (fun tally' =>
      run_loop out G (S i) cases' tally')
  end.

(** [run_test_suite] over a list of cases, lines 184 to 243. *)
Definition run_test_suite_on (out : Stdout) (G : Globals) (cases : list TestCase)
  : Outcome bool :=
  and_then (print_str out rule_80) (fun _ =>
  and_then (print_str out "LIVEKT INTELLIGENT INTERRUPTION HANDLER - TEST SUITE") (fun _ =>
  and_then (print_str out rule_80) (fun _ =>
  and_then (print_empty out) (fun _ =>
  and_then (use_logger G) (fun _ =>
  and_then (run_loop out G 1 cases {| passed := 0; failed := 0 |}) (fun tally =>
  and_then (print_str out rule_80) (fun _ =>
  and_then (print_str out ("RESULTS: " +:+ pretty (A:=nat) (passed tally) +:+ "/"
                           +:+ pretty (A:=nat) (length cases) +:+ " passed, "
                           +:+ pretty (A:=nat) (failed tally) +:+ "/"
                           +:+ pretty (A:=nat) (length cases) +:+ " failed")) (fun _ =>
  and_then (print_str out rule_80) (fun _ =>
  and_then (match cases with
            | [] => Raised "ZeroDivisionError"
            | _ :: _ => Returned tt
            end) (fun _ =>
  and_then (if (failed tally =? 0)%nat
            then print out (CheckMark :: to_text " All tests passed!")
            else print out (BallotX :: to_text (" " +:+ pretty (A:=nat) (failed tally)
                                                +:+ " test(s) failed"))) (fun _ =>
  Returned (failed tally =? 0)%nat))))))))))).

Definition run_test_suite (out : Stdout) (G : Globals) : Outcome bool :=
  run_test_suite_on out G test_cases.

(** [sorted] of a set of [str]: insertion in ascending order. *)
Fixpoint insert_sorted (x : string) (l : list string) : list string :=
  match l with
  | [] => [x]
  | y :: l' => if String.leb x y then x :: l else y :: insert_sorted x l'
  end.

Definition sorted (s : gset string) : list string :=
  fold_right insert_sorted [] (elements s).

(** [show_configuration], lines 248 to 255. *)
Definition show_configuration (out : Stdout) (G : Globals) : Outcome unit :=
  and_then (use_logger G) (fun _ =>
  and_then (print_str out (String line_feed "CURRENT CONFIGURATION:")) (fun _ =>
  and_then (print_str out ("  IGNORE_WORDS: "
                           +:+ PyStr.repr_list (sorted (g_IGNORE_WORDS G)))) (fun _ =>
  and_then (print_str out ("  INTERRUPT_WORDS: "
                           +:+ PyStr.repr_list (sorted (g_INTERRUPT_WORDS G)))) (fun _ =>
  print_empty out)))).

(** The block under [if __name__ == "__main__"]: the namespace it leaves, and
    the code it exits with or the exception it dies of.  Opening the log
    file is taken to succeed. *)
Definition main (out : Stdout) (G : Globals) : Globals * Outcome Z :=
  let G1 := setup_logging G in
  (G1,
   and_then (use_logger G1) (fun _ =>
   and_then (show_configuration out G1) (fun _ =>
   and_then (run_test_suite out G1) (fun success =>
   and_then (use_logger G1) (fun _ =>
   Returned (if success then 0 else 1)))))).

(** Two standard outputs: one that encodes everything, one that encodes the
    128 ASCII characters only. *)
Definition utf8_stdout : Stdout := fun _ => true.

Definition ascii_stdout : Stdout :=
  fun g => match g with
           | Latin c => (PyStr.ord c <? 128)%nat
           | CheckMark | BallotX => false
           end.

(** *** The name of the log file ([setup_logging], line 273) *)

(** The fields of [datetime.now()] that the format reads. *)
Record DateTime := {
  dt_year : Z;
  dt_month : Z;
  dt_day : Z;
  dt_hour : Z;
  dt_minute : Z;
  dt_second : Z
}.

(** The ranges of the fields; the year has four digits, which every clock
    set after the year 999 gives. *)
Definition valid_datetime (d : DateTime) : Prop :=
  1000 <= dt_year d <= 9999 /\ 1 <= dt_month d <= 12 /\ 1 <= dt_day d <= 31
  /\ 0 <= dt_hour d < 24 /\ 0 <= dt_minute d < 60 /\ 0 <= dt_second d < 60.

Definition digit (n : Z) : ascii := ascii_of_N (Z.to_N (48 + n mod 10)).

(** Two and four decimal digits, padded with zeros. *)
Definition pad2 (n : Z) : string :=
  String (digit (n / 10)) (String (digit n) EmptyString).

Definition pad4 (n : Z) : string :=
  String (digit (n / 1000)) (String (digit (n / 100)) (pad2 n)).

(** [strftime('%Y%m%d_%H%M%S')]. *)
Definition strftime_stamp (d : DateTime) : string :=
  pad4 (dt_year d) +:+ pad2 (dt_month d) +:+ pad2 (dt_day d) +:+ "_" +:+
  pad2 (dt_hour d) +:+ pad2 (dt_minute d) +:+ pad2 (dt_second d).

(** The value [setup_logging] returns when the clock reads [now]. *)
Definition log_filename (now : DateTime) : string :=
  "test_results_" +:+ strftime_stamp now +:+ ".log".

(** ** More vocabulary for the properties *)

Definition is_punctuation (c : ascii) : bool := PyStr.char_in c PUNCTUATION.

Definition is_lower (s : string) : bool :=
  all_chars (fun c => Ascii.eqb (PyStr.lower_char c) c) s.

(** A token of the transcript that the speaking-agent rules do not let
    pass: it is in the interrupt set, or it is in neither of the two
    acceptable sets. *)
Definition interrupting (G : Globals) (tok : string) : Prop :=
  is_interrupt G tok \/ ~ is_acceptable G tok.

(** [head_kept drop s]: [s] is empty or starts with a character that
    [lstrip] keeps. *)
Definition head_kept (drop : ascii -> bool) (s : string) : bool :=
  match s with
  | EmptyString => true
  | String c _ => negb (drop c)
  end.

(** What is checked of every entry of the three configured sets: an entry
    of one word is the only token of the transcript that states it, and is
    answered INTERRUPT when it is an interrupt word and SWALLOW otherwise. *)
Definition entry_check (e : string) : bool :=
  multi_word e
  || (match tokens_of e with [t] => String.eqb t e | _ => false end
      && String.eqb (action (test_filter_logic module_globals e true))
                    (if member e INTERRUPT_WORDS then "INTERRUPT" else "SWALLOW")).

(** The namespace with one more word in the interrupt set. *)
Definition with_interrupt_word (w : string) (G : Globals) : Globals :=
  {| g_IGNORE_WORDS := g_IGNORE_WORDS G;
     g_INTERRUPT_WORDS := g_INTERRUPT_WORDS G ∪ {[ w ]};
     g_FILLER_WORDS := g_FILLER_WORDS G;
     g_logger := g_logger G |}.

(** An outcome that is a value or the encoding error of [print]. *)
Definition returns_or_unencodable {A : Type} (m : Outcome A) : Prop :=
  m = Raised "UnicodeEncodeError" \/ exists a, m = Returned a.

(** A namespace with a multi-word entry that has a letter outside ASCII, and
    a standard output that has the two marks and ASCII only. *)
Definition accented_globals : Globals :=
  {| g_IGNORE_WORDS := IGNORE_WORDS ∪ {[ String "233"%char " oui" ]};
     g_INTERRUPT_WORDS := INTERRUPT_WORDS;
     g_FILLER_WORDS := FILLER_WORDS;
     g_logger := None |}.

Definition marks_and_ascii_stdout : Stdout :=
  fun g => match g with
           | Latin c => (PyStr.ord c <? 128)%nat
           | CheckMark | BallotX => true
           end.

(** * Properties *)

(** ** The decision rules, one equation per return statement *)

Section Rules.

Variable G : Globals.
Variable transcript : string.

Lemma member_true (tok : string) (s : gset string) : member tok s = true <-> tok ∈ s.
Proof. unfold member. apply bool_decide_eq_true. Qed.

Lemma member_false (tok : string) (s : gset string) : member tok s = false <-> tok ∉ s.
Proof. unfold member. apply bool_decide_eq_false. Qed.

Lemma rule_no_tokens (agent_speaking : bool) :
  tokens_of transcript = [] ->
  test_filter_logic G transcript agent_speaking = ("SWALLOW", "No tokens (VAD blip)").
Proof. intros E. unfold test_filter_logic. rewrite E. reflexivity. Qed.

Lemma rule_silent :
  tokens_of transcript <> [] ->
  test_filter_logic G transcript false
  = ("RESPOND", "Agent is silent - treat as normal input").
Proof.
  intros E. unfold test_filter_logic.
  destruct (tokens_of transcript); [congruence | reflexivity].
Qed.

Lemma rule_interrupt_words :
  existsb (fun tok => member tok (g_INTERRUPT_WORDS G)) (tokens_of transcript) = true ->
  action (test_filter_logic G transcript true) = "INTERRUPT".
Proof.
  intros E. unfold test_filter_logic.
  destruct (tokens_of transcript) as [|t ts] eqn:T; [discriminate E|].
  cbn [is_nil negb]. rewrite E. reflexivity.
Qed.

Lemma rule_only_acceptable :
  existsb (fun tok => member tok (g_INTERRUPT_WORDS G)) (tokens_of transcript) = false ->
  forallb (fun tok => member tok (g_IGNORE_WORDS G ∪ g_FILLER_WORDS G))
          (tokens_of transcript) = true ->
  action (test_filter_logic G transcript true) = "SWALLOW".
Proof.
  intros E A. unfold test_filter_logic.
  destruct (tokens_of transcript) as [|t ts] eqn:T; [reflexivity|].
  cbn [is_nil negb]. rewrite E, A. reflexivity.
Qed.

Lemma rule_mixed_content :
  tokens_of transcript <> [] ->
  existsb (fun tok => member tok (g_INTERRUPT_WORDS G)) (tokens_of transcript) = false ->
  forallb (fun tok => member tok (g_IGNORE_WORDS G ∪ g_FILLER_WORDS G))
          (tokens_of transcript) = false ->
  action (test_filter_logic G transcript true) = "INTERRUPT".
Proof.
  intros N E A. unfold test_filter_logic.
  destruct (tokens_of transcript) as [|t ts] eqn:T; [congruence|].
  cbn [is_nil negb]. rewrite E, A. reflexivity.
Qed.

Lemma no_interrupt_token :
  (forall tok, In tok (tokens_of transcript) -> ~ is_interrupt G tok) ->
  existsb (fun tok => member tok (g_INTERRUPT_WORDS G)) (tokens_of transcript) = false.
Proof.
  intros H. apply not_true_is_false. intros E.
  apply existsb_exists in E. destruct E as (tok & Hin & Hm).
  apply member_true in Hm. exact (H tok Hin Hm).
Qed.

Lemma acceptable_union (tok : string) :
  member tok (g_IGNORE_WORDS G ∪ g_FILLER_WORDS G) = true <-> is_acceptable G tok.
Proof.
  rewrite member_true. unfold is_acceptable, is_ignore, is_filler.
  apply elem_of_union.
Qed.

End Rules.

(** Closed goals over the configured sets are settled by evaluation. *)
Ltac decide_member :=
  unfold is_acceptable, is_interrupt, is_ignore, is_filler;
  first [ apply (proj1 (member_true _ _)); vm_compute; reflexivity
        | apply (proj1 (member_false _ _)); vm_compute; reflexivity
        | left; apply (proj1 (member_true _ _)); vm_compute; reflexivity
        | right; apply (proj1 (member_true _ _)); vm_compute; reflexivity ].

Ltac each_token H :=
  vm_compute in H;
  repeat match type of H with
         | _ \/ _ => destruct H as [<- | H]
         | False => destruct H
         end.

(** C1. While the agent speaks, a transcript with at least one token in the
    interrupt set is answered INTERRUPT, whatever its other tokens are. *)
Theorem interrupt_priority (G : Globals) (transcript : string) :
  (exists tok, In tok (tokens_of transcript) /\ is_interrupt G tok) ->
  action (test_filter_logic G transcript true) = "INTERRUPT".
Proof.
  intros (tok & Hin & Hi). apply rule_interrupt_words.
  apply existsb_exists. exists tok. split; [exact Hin|].
  apply member_true. exact Hi.
Qed.

Lemma interrupt_priority_witness :
  (exists tok, In tok (tokens_of "Yeah but wait a second")
               /\ is_interrupt module_globals tok)
  /\ action (test_filter_logic module_globals "Yeah but wait a second" true) = "INTERRUPT".
Proof.
  assert (W : exists tok, In tok (tokens_of "Yeah but wait a second")
                          /\ is_interrupt module_globals tok).
  { exists "wait". split; [vm_compute; tauto | decide_member]. }
  split; [exact W|].
  exact (interrupt_priority module_globals "Yeah but wait a second" W).
Defined.

(** C2. While the agent speaks, a transcript none of whose tokens is in the
    interrupt set and all of whose tokens are in the ignore set or in the
    filler set is answered SWALLOW. *)
Theorem all_acceptable_swallow (G : Globals) (transcript : string) :
  (forall tok, In tok (tokens_of transcript) -> ~ is_interrupt G tok) ->
  (forall tok, In tok (tokens_of transcript) -> is_acceptable G tok) ->
  action (test_filter_logic G transcript true) = "SWALLOW".
Proof.
  intros Hn Ha. apply rule_only_acceptable.
  - apply no_interrupt_token. exact Hn.
  - apply forallb_forall. intros tok Hin. apply acceptable_union. exact (Ha tok Hin).
Qed.

Lemma all_acceptable_swallow_witness :
  (forall tok, In tok (tokens_of "Yeah... okay... uh-huh") -> ~ is_interrupt module_globals tok)
  /\ (forall tok, In tok (tokens_of "Yeah... okay... uh-huh") -> is_acceptable module_globals tok)
  /\ action (test_filter_logic module_globals "Yeah... okay... uh-huh" true) = "SWALLOW".
Proof.
  assert (Hn : forall tok, In tok (tokens_of "Yeah... okay... uh-huh")
                           -> ~ is_interrupt module_globals tok).
  { intros tok Hin. each_token Hin; decide_member. }
  assert (Ha : forall tok, In tok (tokens_of "Yeah... okay... uh-huh")
                           -> is_acceptable module_globals tok).
  { intros tok Hin. each_token Hin; decide_member. }
  split; [exact Hn | split; [exact Ha|]].
  exact (all_acceptable_swallow module_globals "Yeah... okay... uh-huh" Hn Ha).
Defined.

(** C3. While the agent speaks, a transcript none of whose tokens is in the
    interrupt set and one of whose tokens is in none of the three sets is
    answered INTERRUPT. *)
Theorem mixed_content_interrupt (G : Globals) (transcript : string) :
  (forall tok, In tok (tokens_of transcript) -> ~ is_interrupt G tok) ->
  (exists tok, In tok (tokens_of transcript)
               /\ ~ is_ignore G tok /\ ~ is_filler G tok /\ ~ is_interrupt G tok) ->
  action (test_filter_logic G transcript true) = "INTERRUPT".
Proof.
  intros Hn (tok & Hin & Hig & Hfi & _). apply rule_mixed_content.
  - intros E. rewrite E in Hin. destruct Hin.
  - apply no_interrupt_token. exact Hn.
  - apply not_true_is_false. intros A.
    rewrite forallb_forall in A. specialize (A tok Hin).
    apply acceptable_union in A. destruct A as [A | A]; [exact (Hig A) | exact (Hfi A)].
Qed.

Lemma mixed_content_interrupt_witness :
  (forall tok, In tok (tokens_of "Yeah, tell me more") -> ~ is_interrupt module_globals tok)
  /\ (exists tok, In tok (tokens_of "Yeah, tell me more")
                  /\ ~ is_ignore module_globals tok /\ ~ is_filler module_globals tok
                  /\ ~ is_interrupt module_globals tok)
  /\ action (test_filter_logic module_globals "Yeah, tell me more" true) = "INTERRUPT".
Proof.
  assert (Hn : forall tok, In tok (tokens_of "Yeah, tell me more")
                           -> ~ is_interrupt module_globals tok).
  { intros tok Hin. each_token Hin; decide_member. }
  assert (He : exists tok, In tok (tokens_of "Yeah, tell me more")
                  /\ ~ is_ignore module_globals tok /\ ~ is_filler module_globals tok
                  /\ ~ is_interrupt module_globals tok).
  { exists "tell". split; [vm_compute; tauto|]. repeat split; decide_member. }
  split; [exact Hn | split; [exact He|]].
  exact (mixed_content_interrupt module_globals "Yeah, tell me more" Hn He).
Defined.

(** C5. A transcript that leaves no token is answered SWALLOW, whether the
    agent speaks or not. *)
Theorem no_tokens_swallow (G : Globals) (transcript : string) (agent_speaking : bool) :
  tokens_of transcript = [] ->
  action (test_filter_logic G transcript agent_speaking) = "SWALLOW".
Proof. intros E. rewrite (rule_no_tokens G transcript agent_speaking E). reflexivity. Qed.

Lemma no_tokens_swallow_witness :
  tokens_of "... ... ..." = []
  /\ action (test_filter_logic module_globals "... ... ..." true) = "SWALLOW"
  /\ action (test_filter_logic module_globals "... ... ..." false) = "SWALLOW".
Proof.
  assert (E : tokens_of "... ... ..." = []) by (vm_compute; reflexivity).
  split; [exact E | split].
  - exact (no_tokens_swallow module_globals "... ... ..." true E).
  - exact (no_tokens_swallow module_globals "... ... ..." false E).
Defined.

(** C6. A transcript that leaves at least one token is answered RESPOND when
    the agent is silent, whatever the tokens are. *)
Theorem silent_agent_respond (G : Globals) (transcript : string) :
  tokens_of transcript <> [] ->
  action (test_filter_logic G transcript false) = "RESPOND".
Proof. intros E. rewrite (rule_silent G transcript E). reflexivity. Qed.

Lemma silent_agent_respond_witness :
  tokens_of "Cancel that" <> []
  /\ action (test_filter_logic module_globals "Cancel that" false) = "RESPOND".
Proof.
  assert (E : tokens_of "Cancel that" <> []) by (vm_compute; discriminate).
  split; [exact E|].
  exact (silent_agent_respond module_globals "Cancel that" E).
Defined.

(** C9. The six scenarios of the specification, on the configured word
    sets. *)
Theorem literal_scenarios :
  action (test_filter_logic module_globals "Yeah... okay... uh-huh" true) = "SWALLOW"
  /\ action (test_filter_logic module_globals "Yeah" false) = "RESPOND"
  /\ action (test_filter_logic module_globals "Stop" true) = "INTERRUPT"
  /\ action (test_filter_logic module_globals "Yeah but wait a second" true) = "INTERRUPT"
  /\ action (test_filter_logic module_globals EmptyString true) = "SWALLOW"
  /\ action (test_filter_logic module_globals "... ... ..." true) = "SWALLOW".
Proof. repeat split; vm_compute; reflexivity. Qed.

(** ** Facts on the string operations *)

Section StringFacts.

Lemma append_cons (c : ascii) (a b : string) :
  String c a +:+ b = String c (a +:+ b).
Proof. reflexivity. Qed.

Lemma append_empty_l (b : string) : EmptyString +:+ b = b.
Proof. reflexivity. Qed.

Lemma append_empty_r (s : string) : s +:+ EmptyString = s.
Proof.
  induction s as [|c s IH]; [reflexivity|].
  now rewrite append_cons, IH.
Qed.

Lemma append_assoc (a b c : string) : (a +:+ b) +:+ c = a +:+ (b +:+ c).
Proof.
  induction a as [|x a IH]; [reflexivity|].
  now rewrite !append_cons, IH.
Qed.

Lemma is_empty_snoc (w : string) (c : ascii) :
  PyStr.is_empty (w +:+ String c EmptyString) = false.
Proof. destruct w; reflexivity. Qed.

Lemma all_chars_app (p : ascii -> bool) (a b : string) :
  all_chars p (a +:+ b) = all_chars p a && all_chars p b.
Proof.
  induction a as [|x a IH]; [reflexivity|].
  rewrite append_cons. cbn. rewrite IH. apply andb_assoc.
Qed.

(** *** [split] *)

Lemma split_from_app_space (w a b : string) (c : ascii) :
  PyStr.isspace c = true ->
  PyStr.split_from w (a +:+ String c b)
  = (PyStr.split_from w a ++ PyStr.split b)%list.
Proof.
  intros Hc. revert w.
  induction a as [|x a IH]; intros w; rewrite ?append_cons, ?append_empty_l;
    cbn [PyStr.split_from].
  - rewrite Hc. reflexivity.
  - destruct (PyStr.isspace x).
    + rewrite IH. rewrite <- app_assoc. reflexivity.
    + apply IH.
Qed.

Lemma split_from_word (w s : string) :
  no_space s = true ->
  PyStr.split_from w s = PyStr.flush (w +:+ s).
Proof.
  unfold no_space. revert w.
  induction s as [|x s IH]; intros w H; cbn [PyStr.split_from all_chars] in *.
  - now rewrite (append_empty_r w).
  - apply andb_prop in H as [Hx Hs].
    apply negb_true_iff in Hx. rewrite Hx.
    rewrite (IH _ Hs), append_assoc. reflexivity.
Qed.

(** Every piece is made of characters of the scanned string that are not
    whitespace, and no piece is empty. *)
Lemma split_from_pieces (p : ascii -> bool) (w s : string) :
  all_chars p w = true ->
  all_chars (fun c => PyStr.isspace c || p c) s = true ->
  Forall (fun piece => all_chars p piece = true) (PyStr.split_from w s).
Proof.
  revert w. induction s as [|x s IH]; intros w Hw Hs;
    cbn [PyStr.split_from all_chars] in *.
  - unfold PyStr.flush. destruct (PyStr.is_empty w); constructor; [exact Hw | constructor].
  - apply andb_prop in Hs as [Hx Hs].
    destruct (PyStr.isspace x) eqn:Ex.
    + apply Forall_app. split.
      * unfold PyStr.flush. destruct (PyStr.is_empty w); constructor; [exact Hw | constructor].
      * apply IH; [reflexivity | exact Hs].
    + apply IH; [|exact Hs].
      rewrite all_chars_app. cbn [all_chars].
      cbn [orb] in Hx. now rewrite Hw, Hx.
Qed.

Lemma split_from_nonempty (w s : string) :
  Forall (fun piece => PyStr.is_empty piece = false) (PyStr.split_from w s).
Proof.
  revert w. induction s as [|x s IH]; intros w; cbn [PyStr.split_from].
  - unfold PyStr.flush. destruct (PyStr.is_empty w) eqn:E; constructor; [exact E | constructor].
  - destruct (PyStr.isspace x).
    + apply Forall_app. split; [|apply IH].
      unfold PyStr.flush. destruct (PyStr.is_empty w) eqn:E; constructor; [exact E | constructor].
    + apply IH.
Qed.

Lemma split_no_space (s : string) :
  Forall (fun piece => no_space piece = true) (PyStr.split s).
Proof.
  apply (split_from_pieces (fun c => negb (PyStr.isspace c))); [reflexivity|].
  induction s as [|x s IH]; cbn [all_chars]; [reflexivity|].
  rewrite IH. now destruct (PyStr.isspace x).
Qed.

(** *** [lower] *)

Lemma isspace_lower_char (c : ascii) :
  PyStr.isspace (PyStr.lower_char c) = PyStr.isspace c.
Proof. destruct c as [[] [] [] [] [] [] [] []]; reflexivity. Qed.

Lemma lower_app (a b : string) :
  PyStr.lower (a +:+ b) = PyStr.lower a +:+ PyStr.lower b.
Proof.
  induction a as [|x a IH]; [reflexivity|].
  rewrite !append_cons. cbn. now rewrite IH.
Qed.

Lemma flush_lower (w : string) :
  PyStr.flush (PyStr.lower w) = map PyStr.lower (PyStr.flush w).
Proof. destruct w; reflexivity. Qed.

Lemma split_from_lower (w s : string) :
  PyStr.split_from (PyStr.lower w) (PyStr.lower s)
  = map PyStr.lower (PyStr.split_from w s).
Proof.
  revert w. induction s as [|x s IH]; intros w; cbn [PyStr.split_from PyStr.lower].
  - apply flush_lower.
  - rewrite isspace_lower_char. destruct (PyStr.isspace x).
    + rewrite map_app, <- flush_lower. f_equal. apply (IH EmptyString).
    + rewrite <- IH, lower_app. reflexivity.
Qed.

Lemma split_lower (s : string) :
  PyStr.split (PyStr.lower s) = map PyStr.lower (PyStr.split s).
Proof. apply (split_from_lower EmptyString). Qed.

(** *** [strip] *)

Lemma all_chars_lstrip (p drop : ascii -> bool) (s : string) :
  all_chars p s = true -> all_chars p (PyStr.lstrip_by drop s) = true.
Proof.
  induction s as [|x s IH]; cbn; [reflexivity|]. intros H.
  destruct (drop x); [|exact H].
  apply andb_prop in H as [_ H]. exact (IH H).
Qed.

Lemma all_chars_rstrip (p drop : ascii -> bool) (s : string) :
  all_chars p s = true -> all_chars p (PyStr.rstrip_by drop s) = true.
Proof.
  induction s as [|x s IH]; cbn; [reflexivity|]. intros H.
  apply andb_prop in H as [Hx H].
  destruct (PyStr.is_empty (PyStr.rstrip_by drop s) && drop x); [reflexivity|].
  cbn. now rewrite Hx, (IH H).
Qed.

Lemma all_chars_strip (p drop : ascii -> bool) (s : string) :
  all_chars p s = true -> all_chars p (PyStr.strip_by drop s) = true.
Proof. intros H. apply all_chars_rstrip, all_chars_lstrip, H. Qed.

Lemma lstrip_all (drop : ascii -> bool) (s : string) :
  all_chars drop s = true -> PyStr.lstrip_by drop s = EmptyString.
Proof.
  induction s as [|x s IH]; cbn; [reflexivity|]. intros H.
  apply andb_prop in H as [Hx H]. rewrite Hx. exact (IH H).
Qed.

Lemma strip_all (drop : ascii -> bool) (s : string) :
  all_chars drop s = true -> PyStr.strip_by drop s = EmptyString.
Proof. intros H. unfold PyStr.strip_by. now rewrite (lstrip_all drop s H). Qed.

End StringFacts.

(** ** Facts on the tokens *)

Section TokenFacts.

Lemma tokens_of_pieces_eq (transcript : string) :
  tokens_of transcript = tokens_of_pieces (PyStr.split (PyStr.lower transcript)).
Proof. reflexivity. Qed.

Lemma tokens_of_split (transcript : string) :
  tokens_of transcript = tokens_of_pieces (map PyStr.lower (PyStr.split transcript)).
Proof. now rewrite tokens_of_pieces_eq, split_lower. Qed.

Lemma tokens_of_pieces_app (l1 l2 : list string) :
  tokens_of_pieces (l1 ++ l2) = (tokens_of_pieces l1 ++ tokens_of_pieces l2)%list.
Proof. unfold tokens_of_pieces. now rewrite List.filter_app, map_app, List.filter_app. Qed.

Lemma stop_word_cases (w : string) :
  w ∈ STOP_WORDS ->
  w = "a" \/ w = "an" \/ w = "the" \/ w = "to" \/ w = "in" \/ w = "on" \/ w = "at".
Proof.
  unfold STOP_WORDS. rewrite elem_of_list_to_set, !elem_of_cons, elem_of_nil. tauto.
Qed.

(** A stop word standing as a piece of its own leaves no token. *)
Lemma tokens_of_pieces_stop_word (w : string) :
  w ∈ STOP_WORDS -> tokens_of_pieces [PyStr.lower w] = [].
Proof.
  intros H. apply stop_word_cases in H.
  repeat (destruct H as [-> | H]); try subst w; vm_compute; reflexivity.
Qed.

Lemma split_stop_word (w : string) : w ∈ STOP_WORDS -> PyStr.split w = [w].
Proof.
  intros H. apply stop_word_cases in H.
  repeat (destruct H as [-> | H]); try subst w; vm_compute; reflexivity.
Qed.

(** No token has a whitespace character in it. *)
Lemma tokens_no_space (transcript : string) :
  Forall (fun tok => no_space tok = true) (tokens_of transcript).
Proof.
  rewrite tokens_of_pieces_eq. unfold tokens_of_pieces.
  apply List.Forall_forall. intros tok Hin.
  apply filter_In in Hin as [Hin _].
  apply in_map_iff in Hin as (piece & <- & Hin).
  apply filter_In in Hin as [Hin _].
  apply all_chars_strip.
  pose proof (split_no_space (PyStr.lower transcript)) as F.
  rewrite List.Forall_forall in F. exact (F piece Hin).
Qed.

Lemma no_space_single_word (tok : string) :
  no_space tok = true -> multi_word tok = false.
Proof.
  unfold no_space, multi_word.
  induction tok as [|c tok IH]; cbn [all_chars PyStr.char_in]; [reflexivity|].
  intros H. apply andb_prop in H as [Hc H]. rewrite (IH H), orb_false_r.
  destruct (Ascii.eqb " " c) eqn:E; [|reflexivity].
  apply Ascii.eqb_eq in E. subst c. discriminate Hc.
Qed.

Lemma lower_char_degenerate (c : ascii) :
  PyStr.isspace (PyStr.lower_char c) || PyStr.char_in (PyStr.lower_char c) PUNCTUATION
  = PyStr.isspace c || PyStr.char_in c PUNCTUATION.
Proof. destruct c as [[] [] [] [] [] [] [] []]; reflexivity. Qed.

Lemma tokens_of_pieces_punctuation (pieces : list string) :
  Forall (fun piece => all_chars (fun c => PyStr.char_in c PUNCTUATION) piece = true) pieces ->
  tokens_of_pieces pieces = [].
Proof.
  unfold tokens_of_pieces. induction 1 as [|piece pieces Hp _ IH]; [reflexivity|].
  cbn [List.filter]. destruct (PyStr.truthy (PyStr.strip_ws piece)); [|exact IH].
  cbn [map List.filter]. unfold PyStr.strip at 1.
  rewrite (strip_all _ piece Hp). cbn [PyStr.truthy PyStr.is_empty negb andb]. exact IH.
Qed.

(** The empty transcript, and every transcript made of whitespace and of
    the stripped punctuation only, leaves no token. *)
Lemma tokens_of_degenerate (transcript : string) :
  all_chars (fun c => PyStr.isspace c || PyStr.char_in c PUNCTUATION) transcript = true ->
  tokens_of transcript = [].
Proof.
  intros H. rewrite tokens_of_pieces_eq. apply tokens_of_pieces_punctuation.
  apply split_from_pieces; [reflexivity|].
  induction transcript as [|c s IH]; [reflexivity|].
  cbn [PyStr.lower all_chars] in *. apply andb_prop in H as [Hc H].
  now rewrite lower_char_degenerate, Hc, (IH H).
Qed.

Lemma degenerate_swallowed (G : Globals) (transcript : string) (agent_speaking : bool) :
  all_chars (fun c => PyStr.isspace c || PyStr.char_in c PUNCTUATION) transcript = true ->
  test_filter_logic G transcript agent_speaking = ("SWALLOW", "No tokens (VAD blip)").
Proof. intros H. apply rule_no_tokens, tokens_of_degenerate, H. Qed.

End TokenFacts.

(** ** The result is a function of the tokens and of the three sets *)

Section Dependence.

Lemma same_tokens_same_result (G : Globals) (t t' : string) (agent_speaking : bool) :
  tokens_of t = tokens_of t' ->
  test_filter_logic G t agent_speaking = test_filter_logic G t' agent_speaking.
Proof. intros E. unfold test_filter_logic. now rewrite E. Qed.

Lemma same_sets_same_result (G G' : Globals) (t : string) (agent_speaking : bool) :
  g_IGNORE_WORDS G = g_IGNORE_WORDS G' ->
  g_INTERRUPT_WORDS G = g_INTERRUPT_WORDS G' ->
  g_FILLER_WORDS G = g_FILLER_WORDS G' ->
  test_filter_logic G t agent_speaking = test_filter_logic G' t agent_speaking.
Proof. intros E1 E2 E3. unfold test_filter_logic. now rewrite E1, E2, E3. Qed.

Lemma existsb_agree {A : Type} (f g : A -> bool) (l : list A) :
  (forall x, In x l -> f x = g x) -> existsb f l = existsb g l.
Proof.
  induction l as [|x l IH]; intros H; cbn; [reflexivity|].
  rewrite (H x (or_introl eq_refl)), IH; [reflexivity|].
  intros y Hy. apply H. now right.
Qed.

Lemma forallb_agree {A : Type} (f g : A -> bool) (l : list A) :
  (forall x, In x l -> f x = g x) -> forallb f l = forallb g l.
Proof.
  induction l as [|x l IH]; intros H; cbn; [reflexivity|].
  rewrite (H x (or_introl eq_refl)), IH; [reflexivity|].
  intros y Hy. apply H. now right.
Qed.

Lemma filter_agree {A : Type} (f g : A -> bool) (l : list A) :
  (forall x, In x l -> f x = g x) -> List.filter f l = List.filter g l.
Proof.
  induction l as [|x l IH]; intros H; cbn; [reflexivity|].
  rewrite (H x (or_introl eq_refl)), IH; [reflexivity|].
  intros y Hy. apply H. now right.
Qed.

(** Membership of a single word is unchanged by the removal of the
    multi-word entries. *)
Lemma elem_of_single_words (tok : string) (s : gset string) :
  multi_word tok = false -> (tok ∈ single_words s <-> tok ∈ s).
Proof.
  intros H. unfold single_words. rewrite elem_of_filter. tauto.
Qed.

Lemma member_single_words (tok : string) (s : gset string) :
  multi_word tok = false -> member tok (single_words s) = member tok s.
Proof.
  intros H. unfold member. apply bool_decide_ext. now apply elem_of_single_words.
Qed.

Lemma member_single_words_union (tok : string) (s1 s2 : gset string) :
  multi_word tok = false ->
  member tok (single_words s1 ∪ single_words s2) = member tok (s1 ∪ s2).
Proof.
  intros H. unfold member. apply bool_decide_ext.
  rewrite !elem_of_union, !(elem_of_single_words tok _ H). tauto.
Qed.

Lemma tokens_single_word (transcript tok : string) :
  In tok (tokens_of transcript) -> multi_word tok = false.
Proof.
  intros Hin. apply no_space_single_word.
  pose proof (tokens_no_space transcript) as F.
  rewrite List.Forall_forall in F. exact (F tok Hin).
Qed.

Lemma without_multi_word_same_result (G : Globals) (t : string) (agent_speaking : bool) :
  test_filter_logic (without_multi_word G) t agent_speaking
  = test_filter_logic G t agent_speaking.
Proof.
  unfold test_filter_logic. cbn [without_multi_word g_IGNORE_WORDS g_INTERRUPT_WORDS g_FILLER_WORDS].
  pose proof (tokens_single_word t) as S.
  rewrite (existsb_agree
             (fun tok => member tok (single_words (g_INTERRUPT_WORDS G)))
             (fun tok => member tok (g_INTERRUPT_WORDS G)))
    by (intros x Hx; apply member_single_words, S, Hx).
  rewrite (filter_agree
             (fun tok => member tok (single_words (g_INTERRUPT_WORDS G)))
             (fun tok => member tok (g_INTERRUPT_WORDS G)))
    by (intros x Hx; apply member_single_words, S, Hx).
  rewrite (forallb_agree
             (fun tok => member tok (single_words (g_IGNORE_WORDS G)
                                     ∪ single_words (g_FILLER_WORDS G)))
             (fun tok => member tok (g_IGNORE_WORDS G ∪ g_FILLER_WORDS G)))
    by (intros x Hx; apply member_single_words_union, S, Hx).
  reflexivity.
Qed.

(** While the agent speaks the answer is SWALLOW exactly when the content
    rules say so: no token in the interrupt set, every token acceptable
    (with no token at all, both hold). *)
Lemma speaking_swallow_iff (G : Globals) (t : string) :
  action (test_filter_logic G t true) = "SWALLOW"
  <-> (forall tok, In tok (tokens_of t) -> ~ is_interrupt G tok /\ is_acceptable G tok).
Proof.
  split.
  - intros A tok Hin. unfold test_filter_logic in A.
    destruct (tokens_of t) as [|t0 ts] eqn:T; [destruct Hin|].
    cbn [is_nil] in A.
    destruct (existsb _ (t0 :: ts)) eqn:E; [discriminate A|].
    destruct (forallb _ (t0 :: ts)) eqn:F; [|discriminate A].
    split.
    + intros I. apply member_true in I.
      assert (X : existsb (fun tok => member tok (g_INTERRUPT_WORDS G)) (t0 :: ts) = true)
        by (apply existsb_exists; exists tok; split; [exact Hin | exact I]).
      rewrite X in E. discriminate E.
    + rewrite forallb_forall in F. apply acceptable_union. exact (F tok Hin).
  - intros H. apply rule_only_acceptable.
    + apply no_interrupt_token. intros tok Hin. exact (proj1 (H tok Hin)).
    + apply forallb_forall. intros tok Hin. apply acceptable_union.
      exact (proj2 (H tok Hin)).
Qed.

End Dependence.

(** ** The session *)

Section Session.

(** *** Running the function in a world *)

Lemma py_in_run (tok : string) (name : Globals -> gset string) (w : World) :
  py_in tok name w = (member tok (name (globals w)), w).
Proof. reflexivity. Qed.

Lemma py_any_run (name : Globals -> gset string) (tokens : list string) (w : World) :
  py_any (fun tok => py_in tok name) tokens w
  = (existsb (fun tok => member tok (name (globals w))) tokens, w).
Proof.
  induction tokens as [|tok tokens IH]; [reflexivity|].
  cbn [py_any existsb]. unfold py_bind at 1. rewrite py_in_run.
  destruct (member tok (name (globals w))); [reflexivity | exact IH].
Qed.

Lemma py_select_run (name : Globals -> gset string) (tokens : list string) (w : World) :
  py_select (fun t => py_in t name) tokens w
  = (List.filter (fun t => member t (name (globals w))) tokens, w).
Proof.
  induction tokens as [|t tokens IH]; [reflexivity|].
  cbn [py_select List.filter]. unfold py_bind at 1. rewrite py_in_run.
  unfold py_bind at 1. rewrite IH. unfold py_ret.
  now destruct (member t (name (globals w))).
Qed.

(** The call reads the three word sets of the world it runs in and nothing
    else, and leaves the world as it found it: no global is assigned, no set
    is updated in place (line 84 builds a new set), the clock is not read. *)
Lemma call_pure (w : World) (transcript : string) (agent_speaking : bool) :
  call w transcript agent_speaking
  = (test_filter_logic (globals w) transcript agent_speaking, w).
Proof.
  unfold call, test_filter_logic_py, test_filter_logic.
  destruct (is_nil (tokens_of transcript)); [reflexivity|].
  destruct (negb agent_speaking); [reflexivity|].
  unfold py_bind at 1. rewrite py_any_run.
  destruct (existsb _ (tokens_of transcript)).
  - unfold py_bind. rewrite py_select_run. reflexivity.
  - unfold py_bind, load_global.
    now destruct (forallb _ (tokens_of transcript)).
Qed.

(** No event rebinds or mutates one of the three word sets. *)
Lemma step_keeps_word_sets (w : World) (e : Event) :
  same_word_sets (globals (fst (step w e))) (globals w).
Proof.
  destruct e; cbn [step]; [| |rewrite call_pure]; cbn;
    (split; [|split]); reflexivity.
Qed.

Lemma run_keeps_word_sets (events : list Event) (w : World) :
  same_word_sets (globals (fst (run w events))) (globals w).
Proof.
  revert w. induction events as [|e events IH]; intros w; cbn [run].
  - split; [|split]; reflexivity.
  - pose proof (step_keeps_word_sets w e) as (S1 & S2 & S3).
    destruct (step w e) as [w1 out1]. specialize (IH w1).
    destruct (run w1 events) as [w2 out2]. cbn [fst] in *.
    destruct IH as (I1 & I2 & I3).
    split; [|split]; congruence.
Qed.

Lemma call_in_session (events : list Event) (transcript : string) (agent_speaking : bool) :
  fst (call (fst (run initial_world events)) transcript agent_speaking)
  = test_filter_logic module_globals transcript agent_speaking.
Proof.
  rewrite call_pure. cbn [fst].
  destruct (run_keeps_word_sets events initial_world) as (S1 & S2 & S3).
  now apply same_sets_same_result.
Qed.

End Session.

(** ** Stop words *)

Lemma tokens_insert_stop_word (t t' w : string) (l1 l2 : list string) :
  w ∈ STOP_WORDS ->
  PyStr.split t = (l1 ++ l2)%list ->
  PyStr.split t' = (l1 ++ w :: l2)%list ->
  tokens_of t' = tokens_of t.
Proof.
  intros Hw E E'. rewrite !tokens_of_split, E, E'.
  rewrite !map_app. cbn [map].
  change (PyStr.lower w :: map PyStr.lower l2)
    with ([PyStr.lower w] ++ map PyStr.lower l2)%list.
  rewrite !tokens_of_pieces_app, (tokens_of_pieces_stop_word w Hw). reflexivity.
Qed.

(** C7. A transcript and the transcript with one more stop word among its
    whitespace-separated words get the same action, whether the agent speaks
    or not: read one way the word is inserted, read the other way it is
    removed. *)
Theorem stop_word_invariance (G : Globals) (t t' w : string) (l1 l2 : list string)
        (agent_speaking : bool) :
  w ∈ STOP_WORDS ->
  PyStr.split t = (l1 ++ l2)%list ->
  PyStr.split t' = (l1 ++ w :: l2)%list ->
  action (test_filter_logic G t' agent_speaking)
  = action (test_filter_logic G t agent_speaking).
Proof.
  intros Hw E E'. f_equal. apply same_tokens_same_result.
  exact (tokens_insert_stop_word t t' w l1 l2 Hw E E').
Qed.

Lemma stop_word_invariance_witness :
  "the" ∈ STOP_WORDS
  /\ PyStr.split "Yeah okay" = (["Yeah"] ++ ["okay"])%list
  /\ PyStr.split "Yeah the okay" = (["Yeah"] ++ "the" :: ["okay"])%list
  /\ action (test_filter_logic module_globals "Yeah the okay" true)
     = action (test_filter_logic module_globals "Yeah okay" true).
Proof.
  assert (Hw : "the" ∈ STOP_WORDS) by (apply member_true; vm_compute; reflexivity).
  assert (E : PyStr.split "Yeah okay" = (["Yeah"] ++ ["okay"])%list)
    by (vm_compute; reflexivity).
  assert (E' : PyStr.split "Yeah the okay" = (["Yeah"] ++ "the" :: ["okay"])%list)
    by (vm_compute; reflexivity).
  split; [exact Hw | split; [exact E | split; [exact E'|]]].
  exact (stop_word_invariance module_globals "Yeah okay" "Yeah the okay" "the"
           ["Yeah"] ["okay"] true Hw E E').
Defined.

(** The same on the text: a stop word written between two spaces, at the
    start or at the end of the transcript. *)
Lemma stop_word_between_spaces (G : Globals) (a b w : string) (agent_speaking : bool) :
  w ∈ STOP_WORDS ->
  test_filter_logic G (a +:+ " " +:+ w +:+ " " +:+ b) agent_speaking
  = test_filter_logic G (a +:+ " " +:+ b) agent_speaking.
Proof.
  intros Hw. apply same_tokens_same_result.
  apply (tokens_insert_stop_word _ _ w (PyStr.split a) (PyStr.split b) Hw).
  - change (" " +:+ b) with (String " " b).
    apply (split_from_app_space EmptyString a b " "). reflexivity.
  - change (" " +:+ w +:+ " " +:+ b) with (String " " (w +:+ String " " b)).
    unfold PyStr.split at 1.
    rewrite (split_from_app_space EmptyString a _ " ") by reflexivity.
    f_equal. unfold PyStr.split at 1.
    rewrite (split_from_app_space EmptyString w b " ") by reflexivity.
    fold (PyStr.split w). now rewrite (split_stop_word w Hw).
Qed.

Lemma stop_word_at_start (G : Globals) (b w : string) (agent_speaking : bool) :
  w ∈ STOP_WORDS ->
  test_filter_logic G (w +:+ " " +:+ b) agent_speaking
  = test_filter_logic G b agent_speaking.
Proof.
  intros Hw. apply same_tokens_same_result.
  apply (tokens_insert_stop_word _ _ w [] (PyStr.split b) Hw); [reflexivity|].
  change (" " +:+ b) with (String " " b). unfold PyStr.split at 1.
  rewrite (split_from_app_space EmptyString w b " ") by reflexivity.
  fold (PyStr.split w). now rewrite (split_stop_word w Hw).
Qed.

Lemma stop_word_at_end (G : Globals) (a w : string) (agent_speaking : bool) :
  w ∈ STOP_WORDS ->
  test_filter_logic G (a +:+ " " +:+ w) agent_speaking
  = test_filter_logic G a agent_speaking.
Proof.
  intros Hw. apply same_tokens_same_result.
  apply (tokens_insert_stop_word _ _ w (PyStr.split a) [] Hw).
  - now rewrite app_nil_r.
  - change (" " +:+ w) with (String " " w). unfold PyStr.split at 1.
    rewrite (split_from_app_space EmptyString a w " ") by reflexivity.
    now rewrite (split_stop_word w Hw).
Qed.

(** ** Multi-word entries *)

(** The configured sets do hold multi-word entries, and [single_words]
    removes them. *)
Example hold_on_removed :
  member "hold on" INTERRUPT_WORDS = true
  /\ member "hold on" (single_words INTERRUPT_WORDS) = false
  /\ member "hold" (single_words INTERRUPT_WORDS) = true.
Proof. repeat split; vm_compute; reflexivity. Qed.

(** C8. No token holds a space, so no token equals a multi-word entry, and
    the filter answers the same action on the three sets as on the three sets
    without their multi-word entries. *)
Theorem multi_word_entries_inert (G : Globals) (transcript : string) (agent_speaking : bool) :
  (forall tok, In tok (tokens_of transcript) -> PyStr.char_in " " tok = false)
  /\ (forall tok phrase, In tok (tokens_of transcript) -> multi_word phrase = true ->
                         tok <> phrase)
  /\ action (test_filter_logic G transcript agent_speaking)
     = action (test_filter_logic (without_multi_word G) transcript agent_speaking).
Proof.
  split; [|split].
  - intros tok Hin. exact (tokens_single_word transcript tok Hin).
  - intros tok phrase Hin Hp E. subst phrase.
    rewrite (tokens_single_word transcript tok Hin) in Hp. discriminate Hp.
  - now rewrite without_multi_word_same_result.
Qed.

(** ** Debounce *)

(** The simulation of the sources has no gate: it takes no clock, and a
    second call 100 ms after the first is answered by its content, here
    INTERRUPT for Stop. *)
Lemma debounce_law_fails : ~ debounce_law.
Proof.
  intros L.
  specialize (L initial_world 100 "Yeah" "Stop"
                ltac:(vm_compute; discriminate)
                ltac:(unfold MICRO_DEBOUNCE_MS; lia)).
  vm_compute in L. destruct L as [_ L]. discriminate L.
Qed.

Example two_calls_100ms_apart :
  map (fun '(at_ms, r) => (at_ms, action r))
      (snd (run initial_world [Invoke "Yeah" true; Elapse 100; Invoke "Stop" true]))
  = [(0, "SWALLOW"); (100, "INTERRUPT")].
Proof. vm_compute. reflexivity. Qed.

Section Gate.

Variable G : Globals.

(** Once a decision is recorded at or after [t1], every later state of the
    epoch holds a decision recorded at or after [t1]. *)
Lemma Classify_keeps_cooling (transcript : string) (agentSpeaking : bool)
      (now t1 last : Z) :
  t1 <= last ->
  exists last', snd (Classify G transcript agentSpeaking now (Cooling last)) = Cooling last'
                /\ t1 <= last'.
Proof.
  intros H. unfold Classify.
  destruct (is_nil (tokens_of transcript) || negb agentSpeaking);
    [exists last; now split|].
  destruct (within_debounce (Cooling last) now) eqn:W; [exists last; now split|].
  exists now. split; [reflexivity|].
  cbn [within_debounce] in W. apply Z.ltb_ge in W. unfold MICRO_DEBOUNCE_MS in W. lia.
Qed.

Lemma classify_speaking_keeps_cooling (calls : list (string * Z)) (t1 last : Z) :
  t1 <= last ->
  exists last', classify_speaking G calls (Cooling last) = Cooling last' /\ t1 <= last'.
Proof.
  revert last. induction calls as [|[transcript now] calls IH]; intros last H;
    cbn [classify_speaking].
  - exists last. now split.
  - destruct (Classify_keeps_cooling transcript true now t1 last H) as (l & -> & Hl).
    exact (IH l Hl).
Qed.

(** Inside the window a call made while the agent speaks is answered
    Swallow, by the gate or, with no token left, by the empty-result rule. *)
Lemma Classify_in_window (transcript : string) (now last : Z) :
  now - last < MICRO_DEBOUNCE_MS ->
  action (fst (Classify G transcript true now (Cooling last))) = "SWALLOW".
Proof.
  intros H. unfold Classify. cbn [negb orb]. rewrite orb_false_r.
  destruct (is_nil (tokens_of transcript)) eqn:E.
  - cbn [fst]. apply rule_only_acceptable.
    + destruct (tokens_of transcript); [reflexivity | discriminate E].
    + destruct (tokens_of transcript); [reflexivity | discriminate E].
  - cbn [within_debounce]. apply Z.ltb_lt in H. now rewrite H.
Qed.

End Gate.

(** C4. Two calls of one session made while the agent speaks, the second
    less than [MICRO_DEBOUNCE_MS] after the decision that the first one
    records (the first has tokens and is not itself inside the window of an
    earlier decision), with any calls of the same speaking epoch between
    them: the first returns what the content rules give, the second returns
    Swallow whatever its transcript is. *)
Theorem debounce_gate (G : Globals) (debounce : DebounceState)
        (transcript1 : string) (now1 : Z) (between : list (string * Z))
        (transcript2 : string) (now2 : Z) :
  tokens_of transcript1 <> [] ->
  within_debounce debounce now1 = false ->
  now2 - now1 < MICRO_DEBOUNCE_MS ->
  let '(r1, d1) := Classify G transcript1 true now1 debounce in
  let '(r2, _) := Classify G transcript2 true now2 (classify_speaking G between d1) in
  r1 = test_filter_logic G transcript1 true /\ action r2 = "SWALLOW".
Proof.
  intros Ht Hd Hw.
  assert (E : Classify G transcript1 true now1 debounce
              = (test_filter_logic G transcript1 true, Cooling now1)).
  { unfold Classify. rewrite Hd.
    destruct (tokens_of transcript1); [congruence | reflexivity]. }
  rewrite E.
  destruct (classify_speaking_keeps_cooling G between now1 now1 ltac:(lia))
    as (last & -> & Hl).
  pose proof (Classify_in_window G transcript2 now2 last ltac:(lia)) as S.
  destruct (Classify G transcript2 true now2 (Cooling last)) as [r2 d2].
  split; [reflexivity | exact S].
Qed.

Lemma debounce_gate_witness :
  tokens_of "Yeah" <> []
  /\ within_debounce Idle 0 = false
  /\ 100 - 0 < MICRO_DEBOUNCE_MS
  /\ (let '(r1, d1) := Classify module_globals "Yeah" true 0 Idle in
      let '(r2, _) := Classify module_globals "Stop" true 100
                               (classify_speaking module_globals [("okay", 50)] d1) in
      r1 = test_filter_logic module_globals "Yeah" true /\ action r2 = "SWALLOW").
Proof.
  assert (Ht : tokens_of "Yeah" <> []) by (vm_compute; discriminate).
  assert (Hd : within_debounce Idle 0 = false) by reflexivity.
  assert (Hw : 100 - 0 < MICRO_DEBOUNCE_MS) by (unfold MICRO_DEBOUNCE_MS; lia).
  split; [exact Ht | split; [exact Hd | split; [exact Hw|]]].
  exact (debounce_gate module_globals Idle "Yeah" 0 [("okay", 50)] "Stop" 100 Ht Hd Hw).
Defined.

(** Without the gate the second transcript of the witness interrupts; a call
    150 ms or more after the recorded decision is answered by its content
    and recorded in its turn. *)
Example gate_overrides_interrupt :
  action (test_filter_logic module_globals "Stop" true) = "INTERRUPT"
  /\ Classify module_globals "Stop" true 100 (Cooling 0)
     = (("SWALLOW", "debounced: duplicate within 100ms of prior decision"), Cooling 0)
  /\ Classify module_globals "Stop" true 150 (Cooling 0)
     = (test_filter_logic module_globals "Stop" true, Cooling 150).
Proof. repeat split; vm_compute; reflexivity. Qed.

(** ** Determinism *)

(** C10. The pair that a call returns is decided by the transcript, the flag
    and the three word sets: it is the same in any two worlds that bind the
    three names to the same sets, whatever their clocks and the rest of
    their namespaces; a call leaves the world exactly as it found it; so the
    pair is the same after any two histories of a session (time elapsed,
    logging set up, earlier calls in any order and number). *)
Theorem classifier_deterministic (transcript : string) (agent_speaking : bool) :
  (forall w1 w2 : World,
      same_word_sets (globals w1) (globals w2) ->
      fst (call w1 transcript agent_speaking) = fst (call w2 transcript agent_speaking))
  /\ (forall w : World, snd (call w transcript agent_speaking) = w)
  /\ (forall history1 history2 : list Event,
         fst (call (fst (run initial_world history1)) transcript agent_speaking)
         = fst (call (fst (run initial_world history2)) transcript agent_speaking)).
Proof.
  split; [|split].
  - intros w1 w2 (S1 & S2 & S3). rewrite !call_pure. cbn [fst].
    now apply same_sets_same_result.
  - intros w. now rewrite call_pure.
  - intros history1 history2. now rewrite !call_in_session.
Qed.

(** * Further properties of the tokens and of the decision *)

Section MoreStringFacts.

Lemma all_chars_weaken (p q : ascii -> bool) (s : string) :
  (forall c, p c = true -> q c = true) ->
  all_chars p s = true -> all_chars q s = true.
Proof.
  intros W. induction s as [|c s IH]; cbn [all_chars]; [reflexivity|].
  intros H. apply andb_prop in H as [Hc H]. now rewrite (W c Hc), (IH H).
Qed.

Lemma all_chars_lower (p : ascii -> bool) (s : string) :
  all_chars p (PyStr.lower s) = all_chars (fun c => p (PyStr.lower_char c)) s.
Proof.
  induction s as [|c s IH]; cbn [all_chars PyStr.lower]; [reflexivity|].
  now rewrite IH.
Qed.

Lemma lower_char_idem (c : ascii) :
  PyStr.lower_char (PyStr.lower_char c) = PyStr.lower_char c.
Proof. destruct c as [[] [] [] [] [] [] [] []]; reflexivity. Qed.

Lemma lower_idem (s : string) : PyStr.lower (PyStr.lower s) = PyStr.lower s.
Proof.
  induction s as [|c s IH]; cbn [PyStr.lower]; [reflexivity|].
  now rewrite lower_char_idem, IH.
Qed.

Lemma is_lower_lower (s : string) : is_lower (PyStr.lower s) = true.
Proof.
  unfold is_lower. rewrite all_chars_lower.
  induction s as [|c s IH]; cbn [all_chars]; [reflexivity|].
  rewrite lower_char_idem, IH. now rewrite Ascii.eqb_refl.
Qed.

Lemma is_lower_fixed (s : string) : is_lower s = true -> PyStr.lower s = s.
Proof.
  unfold is_lower. induction s as [|c s IH]; cbn [all_chars PyStr.lower]; [reflexivity|].
  intros H. apply andb_prop in H as [Hc H].
  apply Ascii.eqb_eq in Hc. now rewrite Hc, (IH H).
Qed.

Lemma punctuation_not_space (c : ascii) :
  is_punctuation c = true -> negb (PyStr.isspace c) = true.
Proof. destruct c as [[] [] [] [] [] [] [] []]; vm_compute; congruence. Qed.

Lemma punctuation_lower_char (c : ascii) :
  is_punctuation (PyStr.lower_char c) = is_punctuation c.
Proof. destruct c as [[] [] [] [] [] [] [] []]; reflexivity. Qed.

Lemma no_space_lower (s : string) : no_space (PyStr.lower s) = no_space s.
Proof.
  unfold no_space. rewrite all_chars_lower.
  induction s as [|c s IH]; cbn [all_chars]; [reflexivity|].
  now rewrite isspace_lower_char, IH.
Qed.

Lemma punctuation_lower (s : string) :
  all_chars is_punctuation (PyStr.lower s) = all_chars is_punctuation s.
Proof.
  rewrite all_chars_lower.
  induction s as [|c s IH]; cbn [all_chars]; [reflexivity|].
  now rewrite punctuation_lower_char, IH.
Qed.

(** *** [strip] keeps what has nothing to drop, and is idempotent *)

Lemma rstrip_all (drop : ascii -> bool) (s : string) :
  all_chars drop s = true -> PyStr.rstrip_by drop s = EmptyString.
Proof.
  induction s as [|c s IH]; cbn [all_chars PyStr.rstrip_by]; [reflexivity|].
  intros H. apply andb_prop in H as [Hc H]. now rewrite (IH H), Hc.
Qed.

Lemma rstrip_none (drop : ascii -> bool) (s : string) :
  all_chars (fun c => negb (drop c)) s = true -> PyStr.rstrip_by drop s = s.
Proof.
  induction s as [|c s IH]; cbn [all_chars PyStr.rstrip_by]; [reflexivity|].
  intros H. apply andb_prop in H as [Hc H]. apply negb_true_iff in Hc.
  now rewrite (IH H), Hc, andb_false_r.
Qed.

Lemma lstrip_none (drop : ascii -> bool) (s : string) :
  all_chars (fun c => negb (drop c)) s = true -> PyStr.lstrip_by drop s = s.
Proof.
  destruct s as [|c s]; cbn [all_chars PyStr.lstrip_by]; [reflexivity|].
  intros H. apply andb_prop in H as [Hc _]. apply negb_true_iff in Hc.
  now rewrite Hc.
Qed.

Lemma strip_none (drop : ascii -> bool) (s : string) :
  all_chars (fun c => negb (drop c)) s = true -> PyStr.strip_by drop s = s.
Proof.
  intros H. unfold PyStr.strip_by. now rewrite (lstrip_none drop s H), (rstrip_none drop s H).
Qed.

Lemma lstrip_head_kept (drop : ascii -> bool) (s : string) :
  head_kept drop (PyStr.lstrip_by drop s) = true.
Proof.
  induction s as [|c s IH]; cbn [PyStr.lstrip_by]; [reflexivity|].
  destruct (drop c) eqn:E; [exact IH|]. cbn [head_kept]. now rewrite E.
Qed.

Lemma lstrip_fixed (drop : ascii -> bool) (s : string) :
  head_kept drop s = true -> PyStr.lstrip_by drop s = s.
Proof.
  destruct s as [|c s]; cbn [head_kept PyStr.lstrip_by]; [reflexivity|].
  intros H. apply negb_true_iff in H. now rewrite H.
Qed.

Lemma rstrip_head_kept (drop : ascii -> bool) (s : string) :
  head_kept drop s = true -> head_kept drop (PyStr.rstrip_by drop s) = true.
Proof.
  destruct s as [|c s]; cbn [head_kept PyStr.rstrip_by]; [reflexivity|].
  intros H. pose proof H as H'. apply negb_true_iff in H'.
  rewrite H', andb_false_r. exact H.
Qed.

Lemma rstrip_idem (drop : ascii -> bool) (s : string) :
  PyStr.rstrip_by drop (PyStr.rstrip_by drop s) = PyStr.rstrip_by drop s.
Proof.
  induction s as [|c s IH]; cbn [PyStr.rstrip_by]; [reflexivity|].
  destruct (PyStr.is_empty (PyStr.rstrip_by drop s) && drop c) eqn:E; [reflexivity|].
  cbn [PyStr.rstrip_by]. now rewrite IH, E.
Qed.

Lemma strip_idem (drop : ascii -> bool) (s : string) :
  PyStr.strip_by drop (PyStr.strip_by drop s) = PyStr.strip_by drop s.
Proof.
  unfold PyStr.strip_by.
  rewrite (lstrip_fixed drop (PyStr.rstrip_by drop (PyStr.lstrip_by drop s))).
  - apply rstrip_idem.
  - apply rstrip_head_kept, lstrip_head_kept.
Qed.

(** *** [strip] forgets what it drops at both ends *)

Lemma lstrip_app_all (drop : ascii -> bool) (p s : string) :
  all_chars drop p = true ->
  PyStr.lstrip_by drop (p +:+ s) = PyStr.lstrip_by drop s.
Proof.
  induction p as [|c p IH]; [reflexivity|].
  rewrite append_cons. cbn [all_chars PyStr.lstrip_by].
  intros H. apply andb_prop in H as [Hc H]. now rewrite Hc, (IH H).
Qed.

Lemma rstrip_app_all (drop : ascii -> bool) (s q : string) :
  all_chars drop q = true ->
  PyStr.rstrip_by drop (s +:+ q) = PyStr.rstrip_by drop s.
Proof.
  intros H. induction s as [|c s IH].
  - rewrite append_empty_l. now rewrite (rstrip_all drop q H).
  - rewrite append_cons. cbn [PyStr.rstrip_by]. now rewrite IH.
Qed.

Lemma lstrip_app (drop : ascii -> bool) (s q : string) :
  PyStr.lstrip_by drop (s +:+ q)
  = if all_chars drop s then PyStr.lstrip_by drop q else PyStr.lstrip_by drop s +:+ q.
Proof.
  induction s as [|c s IH]; [reflexivity|].
  rewrite append_cons. cbn [all_chars PyStr.lstrip_by].
  destruct (drop c); [exact IH|]. now rewrite append_cons.
Qed.

Lemma strip_wrapped (drop : ascii -> bool) (p s q : string) :
  all_chars drop p = true -> all_chars drop q = true ->
  PyStr.strip_by drop (p +:+ s +:+ q) = PyStr.strip_by drop s.
Proof.
  intros Hp Hq. unfold PyStr.strip_by.
  rewrite (lstrip_app_all drop p _ Hp), lstrip_app.
  destruct (all_chars drop s) eqn:E.
  - rewrite (lstrip_all drop q Hq), (lstrip_all drop s E). reflexivity.
  - apply rstrip_app_all, Hq.
Qed.

End MoreStringFacts.

(** ** Tokens: case, whitespace, punctuation *)

Lemma lower_transcript_same_result (G : Globals) (t : string) (agent_speaking : bool) :
  test_filter_logic G (PyStr.lower t) agent_speaking = test_filter_logic G t agent_speaking.
Proof.
  apply same_tokens_same_result. now rewrite !tokens_of_pieces_eq, lower_idem.
Qed.

(** X1. The filter does not see the case of the letters: two transcripts
    with the same lowercase form get the same action and the same reason. *)
Theorem case_insensitive (G : Globals) (t t' : string) (agent_speaking : bool) :
  PyStr.lower t = PyStr.lower t' ->
  test_filter_logic G t agent_speaking = test_filter_logic G t' agent_speaking.
Proof.
  intros E. rewrite <- (lower_transcript_same_result G t).
  rewrite <- (lower_transcript_same_result G t'). now rewrite E.
Qed.

Lemma case_insensitive_witness :
  PyStr.lower "STOP it" = PyStr.lower "Stop It"
  /\ test_filter_logic module_globals "STOP it" true
     = test_filter_logic module_globals "Stop It" true.
Proof.
  assert (E : PyStr.lower "STOP it" = PyStr.lower "Stop It") by reflexivity.
  split; [exact E|].
  exact (case_insensitive module_globals "STOP it" "Stop It" true E).
Defined.

Lemma tokens_of_app_space (a b : string) (c : ascii) :
  PyStr.isspace c = true ->
  tokens_of (a +:+ String c b) = (tokens_of a ++ tokens_of b)%list.
Proof.
  intros Hc. rewrite !tokens_of_pieces_eq, lower_app. cbn [PyStr.lower].
  unfold PyStr.split at 1.
  rewrite split_from_app_space by (now rewrite isspace_lower_char).
  apply tokens_of_pieces_app.
Qed.

(** X2. The tokens of two texts joined by a whitespace character are the
    tokens of the first followed by the tokens of the second. *)
Theorem tokens_of_joined (a b : string) (c : ascii) :
  PyStr.isspace c = true ->
  tokens_of (a +:+ String c b) = (tokens_of a ++ tokens_of b)%list.
Proof. exact (tokens_of_app_space a b c). Qed.

Lemma tokens_of_joined_witness :
  PyStr.isspace "010"%char = true
  /\ tokens_of ("Yeah, ok" +:+ String "010"%char "stop!")
     = (tokens_of "Yeah, ok" ++ tokens_of "stop!")%list.
Proof.
  assert (H : PyStr.isspace "010"%char = true) by reflexivity.
  split; [exact H|].
  exact (tokens_of_joined "Yeah, ok" "stop!" "010"%char H).
Defined.

Lemma tokens_lower_pieces (transcript : string) :
  Forall (fun piece => is_lower piece = true) (PyStr.split (PyStr.lower transcript)).
Proof.
  apply (split_from_pieces (fun c => Ascii.eqb (PyStr.lower_char c) c)); [reflexivity|].
  apply (all_chars_weaken (fun c => Ascii.eqb (PyStr.lower_char c) c)).
  - intros c H. rewrite H. apply orb_true_r.
  - apply is_lower_lower.
Qed.

(** X3. Every token is a non-empty lowercase string without whitespace, is
    not a stop word, and neither starts nor ends with a character of the
    stripped punctuation (stripping it again changes nothing). *)
Theorem token_well_formed (transcript tok : string) :
  In tok (tokens_of transcript) ->
  tok <> EmptyString
  /\ (tok ∉ STOP_WORDS)
  /\ no_space tok = true
  /\ PyStr.lower tok = tok
  /\ PyStr.strip PUNCTUATION tok = tok.
Proof.
  intros Hin. pose proof Hin as Hin0.
  rewrite tokens_of_pieces_eq in Hin. unfold tokens_of_pieces in Hin.
  apply filter_In in Hin as [Hin Hf].
  apply andb_prop in Hf as [Ht Hs].
  apply in_map_iff in Hin as (piece & <- & Hin).
  apply filter_In in Hin as [Hin _].
  repeat split.
  - intros E. rewrite E in Ht. discriminate Ht.
  - apply member_false. now apply negb_true_iff.
  - pose proof (tokens_no_space transcript) as F.
    rewrite List.Forall_forall in F. exact (F _ Hin0).
  - apply is_lower_fixed. apply all_chars_strip.
    pose proof (tokens_lower_pieces transcript) as F.
    rewrite List.Forall_forall in F. exact (F piece Hin).
  - apply strip_idem.
Qed.

Lemma token_well_formed_witness :
  In "don't" (tokens_of "(Don't!) stop the music")
  /\ ("don't" <> EmptyString
      /\ ("don't" ∉ STOP_WORDS)
      /\ no_space "don't" = true
      /\ PyStr.lower "don't" = "don't"
      /\ PyStr.strip PUNCTUATION "don't" = "don't").
Proof.
  assert (H : In "don't" (tokens_of "(Don't!) stop the music"))
    by (vm_compute; tauto).
  split; [exact H|].
  exact (token_well_formed "(Don't!) stop the music" "don't" H).
Defined.

Lemma tokens_of_pieces_flush (s : string) :
  no_space s = true ->
  tokens_of_pieces (PyStr.flush s)
  = List.filter (fun t => PyStr.truthy t && negb (member t STOP_WORDS))
                [PyStr.strip PUNCTUATION s].
Proof.
  intros H. destruct s as [|c s]; [reflexivity|].
  unfold PyStr.flush, tokens_of_pieces. cbn [PyStr.is_empty List.filter].
  unfold PyStr.strip_ws. rewrite (strip_none PyStr.isspace _ H). reflexivity.
Qed.

Lemma tokens_of_word (w : string) :
  no_space w = true ->
  tokens_of w
  = List.filter (fun t => PyStr.truthy t && negb (member t STOP_WORDS))
                [PyStr.strip PUNCTUATION (PyStr.lower w)].
Proof.
  intros H. rewrite tokens_of_pieces_eq. unfold PyStr.split.
  rewrite split_from_word, append_empty_l by (now rewrite no_space_lower).
  apply tokens_of_pieces_flush. now rewrite no_space_lower.
Qed.

Lemma punctuation_no_space (p : string) :
  all_chars is_punctuation p = true -> no_space p = true.
Proof. apply all_chars_weaken. exact punctuation_not_space. Qed.

(** X4. Stripped punctuation written before and after a word is not seen:
    the word and the word wrapped in such characters get the same action and
    the same reason. *)
Theorem punctuation_around_word (G : Globals) (p w q : string) (agent_speaking : bool) :
  no_space w = true ->
  all_chars is_punctuation p = true ->
  all_chars is_punctuation q = true ->
  test_filter_logic G (p +:+ w +:+ q) agent_speaking
  = test_filter_logic G w agent_speaking.
Proof.
  intros Hw Hp Hq. apply same_tokens_same_result.
  rewrite (tokens_of_word w Hw), tokens_of_word.
  - rewrite !lower_app. unfold PyStr.strip.
    rewrite strip_wrapped; [reflexivity| |].
    + now rewrite punctuation_lower.
    + now rewrite punctuation_lower.
  - unfold no_space. rewrite !all_chars_app.
    fold (no_space p). fold (no_space w). fold (no_space q).
    now rewrite (punctuation_no_space p Hp), Hw, (punctuation_no_space q Hq).
Qed.

Lemma punctuation_around_word_witness :
  no_space "wait" = true
  /\ all_chars is_punctuation "((" = true
  /\ all_chars is_punctuation ")!?" = true
  /\ test_filter_logic module_globals ("((" +:+ "wait" +:+ ")!?") true
     = test_filter_logic module_globals "wait" true.
Proof.
  assert (Hw : no_space "wait" = true) by reflexivity.
  assert (Hp : all_chars is_punctuation "((" = true) by reflexivity.
  assert (Hq : all_chars is_punctuation ")!?" = true) by reflexivity.
  split; [exact Hw | split; [exact Hp | split; [exact Hq|]]].
  exact (punctuation_around_word module_globals "((" "wait" ")!?" true Hw Hp Hq).
Defined.

(** ** The decision as a table *)

Lemma forallb_false_exists {A : Type} (f : A -> bool) (l : list A) :
  forallb f l = false -> exists x, In x l /\ f x = false.
Proof.
  induction l as [|x l IH]; cbn [forallb]; [discriminate|].
  destruct (f x) eqn:E; cbn [andb].
  - intros H. destruct (IH H) as (y & Hy & Fy). exists y. split; [now right | exact Fy].
  - intros _. exists x. split; [now left | exact E].
Qed.

Lemma speaking_two_actions (G : Globals) (t : string) :
  action (test_filter_logic G t true) = "SWALLOW"
  \/ action (test_filter_logic G t true) = "INTERRUPT".
Proof.
  unfold test_filter_logic. destruct (tokens_of t) as [|t0 ts]; [now left|].
  cbn [is_nil negb].
  destruct (existsb _ (t0 :: ts)); [now right|].
  destruct (forallb _ (t0 :: ts)); [now left | now right].
Qed.

Lemma speaking_interrupt_iff (G : Globals) (t : string) :
  action (test_filter_logic G t true) = "INTERRUPT"
  <-> exists tok, In tok (tokens_of t) /\ interrupting G tok.
Proof.
  split.
  - intros A. unfold test_filter_logic in A.
    destruct (tokens_of t) as [|t0 ts] eqn:T; [discriminate A|].
    cbn [is_nil negb] in A.
    destruct (existsb _ (t0 :: ts)) eqn:E.
    + apply existsb_exists in E as (tok & Hin & Hm).
      exists tok. split; [exact Hin|]. left. now apply member_true.
    + destruct (forallb _ (t0 :: ts)) eqn:F; [discriminate A|].
      apply forallb_false_exists in F as (tok & Hin & Hm).
      exists tok. split; [exact Hin|]. right. intros Acc.
      apply acceptable_union in Acc. rewrite Acc in Hm. discriminate Hm.
  - intros (tok & Hin & Hi).
    destruct (speaking_two_actions G t) as [S | I]; [|exact I].
    destruct (proj1 (speaking_swallow_iff G t) S tok Hin) as [Hn Ha].
    destruct Hi as [Hi | Hi]; [destruct (Hn Hi) | destruct (Hi Ha)].
Qed.

(** X5. The action is one of SWALLOW, RESPOND and INTERRUPT.  It is RESPOND
    exactly when the agent is silent and a token is left (never while the
    agent speaks); it is INTERRUPT exactly when the agent speaks and some
    token is in the interrupt set or in neither acceptable set (never while
    the agent is silent). *)
Theorem decision_table (G : Globals) (t : string) (agent_speaking : bool) :
  (action (test_filter_logic G t agent_speaking) = "SWALLOW"
   \/ action (test_filter_logic G t agent_speaking) = "RESPOND"
   \/ action (test_filter_logic G t agent_speaking) = "INTERRUPT")
  /\ (action (test_filter_logic G t agent_speaking) = "RESPOND"
      <-> tokens_of t <> [] /\ agent_speaking = false)
  /\ (action (test_filter_logic G t agent_speaking) = "INTERRUPT"
      <-> agent_speaking = true
          /\ exists tok, In tok (tokens_of t) /\ interrupting G tok).
Proof.
  destruct agent_speaking.
  - pose proof (speaking_two_actions G t) as T.
    pose proof (speaking_interrupt_iff G t) as I.
    split; [tauto | split].
    + split; [|intros [_ H]; discriminate H].
      intros R. destruct T as [T | T]; rewrite T in R; discriminate R.
    + split; [intros H; split; [reflexivity | now apply I] | intros [_ H]; now apply I].
  - destruct (tokens_of t) as [|t0 ts] eqn:T.
    + rewrite (rule_no_tokens G t false T). cbn [action fst].
      split; [now left | split].
      * split; [discriminate | intros [H _]; congruence].
      * split; [discriminate | intros [H _]; discriminate H].
    + assert (N : tokens_of t <> []) by (rewrite T; discriminate).
      rewrite (rule_silent G t N). cbn [action fst].
      split; [right; now left | split].
      * split; [intros _; split; [discriminate | reflexivity] | reflexivity].
      * split; [discriminate | intros [H _]; discriminate H].
Qed.

(** ** Joined transcripts *)

(** X6. While the agent speaks, a transcript joined from two parts by a
    whitespace character is swallowed exactly when both parts are, and
    interrupts exactly when one of the parts does. *)
Theorem joined_decision (G : Globals) (a b : string) (c : ascii) :
  PyStr.isspace c = true ->
  (action (test_filter_logic G (a +:+ String c b) true) = "SWALLOW"
   <-> action (test_filter_logic G a true) = "SWALLOW"
       /\ action (test_filter_logic G b true) = "SWALLOW")
  /\ (action (test_filter_logic G (a +:+ String c b) true) = "INTERRUPT"
      <-> action (test_filter_logic G a true) = "INTERRUPT"
          \/ action (test_filter_logic G b true) = "INTERRUPT").
Proof.
  intros Hc. rewrite !speaking_swallow_iff, !speaking_interrupt_iff.
  rewrite (tokens_of_app_space a b c Hc). split.
  - split.
    + intros H. split; intros tok Hin; apply H, in_or_app; [now left | now right].
    + intros [Ha Hb] tok Hin. apply in_app_or in Hin as [Hin | Hin]; [now apply Ha | now apply Hb].
  - split.
    + intros (tok & Hin & Hi). apply in_app_or in Hin as [Hin | Hin];
        [left | right]; exists tok; now split.
    + intros [(tok & Hin & Hi) | (tok & Hin & Hi)]; exists tok;
        (split; [apply in_or_app | exact Hi]); [now left | now right].
Qed.

Lemma joined_decision_witness :
  PyStr.isspace " "%char = true
  /\ ((action (test_filter_logic module_globals ("yeah okay" +:+ String " " "but stop") true)
       = "SWALLOW"
       <-> action (test_filter_logic module_globals "yeah okay" true) = "SWALLOW"
           /\ action (test_filter_logic module_globals "but stop" true) = "SWALLOW")
      /\ (action (test_filter_logic module_globals ("yeah okay" +:+ String " " "but stop") true)
          = "INTERRUPT"
          <-> action (test_filter_logic module_globals "yeah okay" true) = "INTERRUPT"
              \/ action (test_filter_logic module_globals "but stop" true) = "INTERRUPT")).
Proof.
  assert (H : PyStr.isspace " "%char = true) by reflexivity.
  split; [exact H|].
  exact (joined_decision module_globals "yeah okay" "but stop" " "%char H).
Defined.

(** ** The configured word sets *)

Lemma entries_checked :
  forallb entry_check (elements (IGNORE_WORDS ∪ INTERRUPT_WORDS ∪ FILLER_WORDS)) = true.
Proof. vm_compute. reflexivity. Qed.

(** X7. Every entry of one word of the three configured sets can be
    matched: said alone it leaves itself as the only token, and while the
    agent speaks it is answered INTERRUPT when it is an interrupt word and
    SWALLOW when it is an ignore or a filler word. *)
Theorem single_word_entry_matches (e : string) :
  e ∈ IGNORE_WORDS ∪ INTERRUPT_WORDS ∪ FILLER_WORDS ->
  multi_word e = false ->
  tokens_of e = [e]
  /\ action (test_filter_logic module_globals e true)
     = (if member e INTERRUPT_WORDS then "INTERRUPT" else "SWALLOW").
Proof.
  intros He Hm. apply elem_of_elements, list_elem_of_In in He.
  pose proof (proj1 (forallb_forall _ _) entries_checked e He) as C.
  unfold entry_check in C. rewrite Hm in C. cbn [orb] in C.
  apply andb_prop in C as [Ct Ca]. split.
  - destruct (tokens_of e) as [|t [|t' ts]]; try discriminate Ct.
    apply String.eqb_eq in Ct. now rewrite Ct.
  - now apply String.eqb_eq in Ca.
Qed.

Lemma single_word_entry_matches_witness :
  "uh-huh" ∈ IGNORE_WORDS ∪ INTERRUPT_WORDS ∪ FILLER_WORDS
  /\ multi_word "uh-huh" = false
  /\ (tokens_of "uh-huh" = ["uh-huh"]
      /\ action (test_filter_logic module_globals "uh-huh" true)
         = (if member "uh-huh" INTERRUPT_WORDS then "INTERRUPT" else "SWALLOW")).
Proof.
  assert (He : "uh-huh" ∈ IGNORE_WORDS ∪ INTERRUPT_WORDS ∪ FILLER_WORDS)
    by (apply member_true; vm_compute; reflexivity).
  assert (Hm : multi_word "uh-huh" = false) by reflexivity.
  split; [exact He | split; [exact Hm|]].
  exact (single_word_entry_matches "uh-huh" He Hm).
Defined.

(** X8. No phrase is listed in two of the three configured sets, and no
    stop word is listed in any of them. *)
Theorem word_sets_disjoint :
  IGNORE_WORDS ## INTERRUPT_WORDS
  /\ IGNORE_WORDS ## FILLER_WORDS
  /\ INTERRUPT_WORDS ## FILLER_WORDS
  /\ STOP_WORDS ## IGNORE_WORDS ∪ INTERRUPT_WORDS ∪ FILLER_WORDS.
Proof.
  repeat split; apply disjoint_intersection_L; vm_compute; reflexivity.
Qed.

(** X9. While the agent speaks, a transcript that interrupts still
    interrupts after words are added to the interrupt set or removed from
    the ignore and filler sets. *)
Theorem interrupt_monotone (G G' : Globals) (t : string) :
  g_INTERRUPT_WORDS G ⊆ g_INTERRUPT_WORDS G' ->
  g_IGNORE_WORDS G' ⊆ g_IGNORE_WORDS G ->
  g_FILLER_WORDS G' ⊆ g_FILLER_WORDS G ->
  action (test_filter_logic G t true) = "INTERRUPT" ->
  action (test_filter_logic G' t true) = "INTERRUPT".
Proof.
  intros Hi Hg Hf. rewrite !speaking_interrupt_iff.
  intros (tok & Hin & [I | N]); exists tok; (split; [exact Hin|]).
  - left. unfold is_interrupt in *. now apply Hi.
  - right. intros [A | A]; apply N; [left | right];
      unfold is_ignore, is_filler in *; [now apply Hg | now apply Hf].
Qed.

Lemma interrupt_monotone_witness :
  g_INTERRUPT_WORDS module_globals
    ⊆ g_INTERRUPT_WORDS (with_interrupt_word "enough" module_globals)
  /\ g_IGNORE_WORDS (with_interrupt_word "enough" module_globals)
       ⊆ g_IGNORE_WORDS module_globals
  /\ g_FILLER_WORDS (with_interrupt_word "enough" module_globals)
       ⊆ g_FILLER_WORDS module_globals
  /\ action (test_filter_logic module_globals "okay stop" true) = "INTERRUPT"
  /\ action (test_filter_logic (with_interrupt_word "enough" module_globals)
                               "okay stop" true) = "INTERRUPT".
Proof.
  assert (Hi : g_INTERRUPT_WORDS module_globals
                 ⊆ g_INTERRUPT_WORDS (with_interrupt_word "enough" module_globals))
    by apply union_subseteq_l.
  assert (Hg : g_IGNORE_WORDS (with_interrupt_word "enough" module_globals)
                 ⊆ g_IGNORE_WORDS module_globals) by reflexivity.
  assert (Hf : g_FILLER_WORDS (with_interrupt_word "enough" module_globals)
                 ⊆ g_FILLER_WORDS module_globals) by reflexivity.
  assert (A : action (test_filter_logic module_globals "okay stop" true) = "INTERRUPT")
    by (vm_compute; reflexivity).
  split; [exact Hi | split; [exact Hg | split; [exact Hf | split; [exact A|]]]].
  exact (interrupt_monotone module_globals (with_interrupt_word "enough" module_globals)
           "okay stop" Hi Hg Hf A).
Defined.

(** ** The test suite and the main block *)

Section Suite.

Variable G : Globals.

Lemma run_case_fold (cases : list TestCase) (tally : Tally) :
  passed (fold_left (run_case G) cases tally)
  = (passed tally + length (List.filter (passed_test G) cases))%nat
  /\ (passed (fold_left (run_case G) cases tally)
      + failed (fold_left (run_case G) cases tally)
      = passed tally + failed tally + length cases)%nat.
Proof.
  revert tally. induction cases as [|test cases IH]; intros tally; cbn [fold_left List.filter length].
  - split; lia.
  - destruct (IH (run_case G tally test)) as [P S].
    split; [rewrite P | rewrite S];
      unfold run_case; destruct (passed_test G test); cbn [passed failed length]; lia.
Qed.

Lemma filter_all_length {A : Type} (f : A -> bool) (l : list A) :
  (length (List.filter f l) <= length l)%nat
  /\ (length (List.filter f l) = length l <-> forallb f l = true).
Proof.
  induction l as [|x l [IHle IHeq]]; cbn [List.filter length forallb].
  - split; [lia | tauto].
  - destruct (f x); cbn [length andb].
    + split; [lia|]. rewrite <- IHeq. split; lia.
    + split; [lia|]. split; [lia | discriminate].
Qed.

Lemma failed_zero_iff (cases : list TestCase) :
  (failed (run_cases G cases) =? 0)%nat = forallb (passed_test G) cases.
Proof.
  unfold run_cases.
  destruct (run_case_fold cases {| passed := 0; failed := 0 |}) as [P S].
  cbn [passed failed] in P, S.
  destruct (filter_all_length (passed_test G) cases) as [Hle Heq].
  destruct (forallb (passed_test G) cases) eqn:F.
  - apply Nat.eqb_eq. pose proof (proj2 Heq eq_refl). lia.
  - apply Nat.eqb_neq. intros Z.
    assert (E : length (List.filter (passed_test G) cases) = length cases) by lia.
    apply (proj1 Heq) in E. discriminate E.
Qed.

Lemma run_cases_all_pass (cases : list TestCase) :
  forallb (passed_test G) cases = true ->
  run_cases G cases = {| passed := length cases; failed := 0 |}.
Proof.
  intros F. pose proof (failed_zero_iff cases) as Z. rewrite F in Z.
  apply Nat.eqb_eq in Z. unfold run_cases in *.
  destruct (run_case_fold cases {| passed := 0; failed := 0 |}) as [_ T].
  destruct (fold_left (run_case G) cases {| passed := 0; failed := 0 |}) as [p f].
  cbn [passed failed] in Z, T. f_equal; lia.
Qed.

End Suite.

(** *** Printing *)

Section Printing.

Variable out : Stdout.

Lemma write_encodes_all (text : list Glyph) :
  encodes_all out -> write out text = Returned tt.
Proof.
  intros H. unfold write.
  assert (F : forallb out text = true) by (apply forallb_forall; intros g _; apply H).
  now rewrite F.
Qed.

Lemma print_encodes_all (text : list Glyph) :
  encodes_all out -> print out text = Returned tt.
Proof. intros H. unfold print. now rewrite !write_encodes_all. Qed.

Lemma write_latin (s : string) :
  encodes_latin out -> write out (to_text s) = Returned tt.
Proof.
  intros H. unfold write, to_text.
  assert (F : forallb out (map Latin (list_ascii_of_string s)) = true).
  { apply forallb_forall. intros g Hg. apply in_map_iff in Hg as (c & <- & _). apply H. }
  now rewrite F.
Qed.

Lemma print_empty_latin : encodes_latin out -> print_empty out = Returned tt.
Proof. intros H. unfold print_empty, write. cbn [forallb]. now rewrite H. Qed.

Lemma print_str_latin (s : string) :
  encodes_latin out -> print_str out s = Returned tt.
Proof.
  intros H. unfold print_str, print. rewrite (write_latin s H). cbn [and_then].
  apply (print_empty_latin H).
Qed.

Lemma write_returns_or_unencodable (text : list Glyph) :
  returns_or_unencodable (write out text).
Proof.
  unfold returns_or_unencodable, write.
  destruct (forallb out text); [right; now exists tt | now left].
Qed.

Lemma and_then_returns_or_unencodable {A B : Type} (m : Outcome A) (k : A -> Outcome B) :
  returns_or_unencodable m -> (forall a, returns_or_unencodable (k a)) ->
  returns_or_unencodable (and_then m k).
Proof. intros [-> | (a & ->)] Hk; [now left | apply Hk]. Qed.

Lemma print_returns_or_unencodable (text : list Glyph) :
  returns_or_unencodable (print out text).
Proof.
  apply and_then_returns_or_unencodable; [|intros _];
    apply write_returns_or_unencodable.
Qed.

(** A computation that can only return or raise the encoding error, followed
    by one that raises the encoding error, raises the encoding error. *)
Lemma and_then_unencodable {A B : Type} (m : Outcome A) (k : A -> Outcome B) :
  returns_or_unencodable m ->
  (forall a, k a = Raised "UnicodeEncodeError") ->
  and_then m k = Raised "UnicodeEncodeError".
Proof. intros [-> | (a & ->)] Hk; [reflexivity | apply Hk]. Qed.

Lemma print_unencodable (text : list Glyph) (g : Glyph) :
  In g text -> out g = false -> print out text = Raised "UnicodeEncodeError".
Proof.
  intros Hin Hg. unfold print, write.
  assert (F : forallb out text = false).
  { apply not_true_is_false. intros F. rewrite forallb_forall in F.
    rewrite (F g Hin) in Hg. discriminate Hg. }
  now rewrite F.
Qed.

End Printing.

(** *** The loop *)

Section Loop.

Variable out : Stdout.
Variable G : Globals.

Lemma run_iteration_encodes_all (i : nat) (tally : Tally) (test : TestCase) :
  encodes_all out ->
  run_iteration out G i tally test = Returned (run_case G tally test).
Proof.
  intros H. unfold run_iteration, print_str, print_empty.
  destruct (test_filter_logic G (tc_transcript test) (tc_agent_speaking test)) as [a r].
  now rewrite !(print_encodes_all out _ H), !(write_encodes_all out _ H).
Qed.

Lemma run_loop_encodes_all (cases : list TestCase) (i : nat) (tally : Tally) :
  encodes_all out ->
  run_loop out G i cases tally = Returned (fold_left (run_case G) cases tally).
Proof.
  intros H. revert i tally.
  induction cases as [|test cases IH]; intros i tally; cbn [run_loop fold_left];
    [reflexivity|].
  rewrite (run_iteration_encodes_all i tally test H). cbn [and_then]. apply IH.
Qed.

Lemma run_test_suite_on_encodes_all (cases : list TestCase) :
  encodes_all out -> g_logger G <> None -> cases <> [] ->
  run_test_suite_on out G cases = Returned (forallb (passed_test G) cases).
Proof.
  intros H Hl Hc. unfold run_test_suite_on, print_str, print_empty, use_logger.
  rewrite (run_loop_encodes_all cases 1 _ H).
  fold (run_cases G cases). rewrite <- (failed_zero_iff G cases).
  destruct (g_logger G); [|congruence].
  destruct cases as [|test cases]; [congruence|].
  repeat (rewrite ?(print_encodes_all out _ H), ?(write_encodes_all out _ H);
          cbn [and_then]).
  now destruct (failed (run_cases G (test :: cases)) =? 0)%nat.
Qed.

Lemma and_then_raised {A B : Type} (m : Outcome A) (k : A -> Outcome B) (e : string) :
  m = Raised e -> and_then m k = Raised e.
Proof. now intros ->. Qed.

(** With neither mark in the encoding, a turn of the loop raises the
    encoding error, at line 222 at the latest. *)
Lemma run_iteration_unencodable (i : nat) (tally : Tally) (test : TestCase) :
  out CheckMark = false -> out BallotX = false ->
  run_iteration out G i tally test = Raised "UnicodeEncodeError".
Proof.
  intros Hc Hx. unfold run_iteration, print_str.
  destruct (test_filter_logic G (tc_transcript test) (tc_agent_speaking test)) as [a r].
  do 7 (apply and_then_unencodable; [apply print_returns_or_unencodable | intros _]).
  apply and_then_raised. unfold status_text.
  destruct (passed_test G test).
  - apply (print_unencodable out _ CheckMark); [|exact Hc].
    apply in_or_app. right. now left.
  - apply (print_unencodable out _ BallotX); [|exact Hx].
    apply in_or_app. right. now left.
Qed.

Lemma run_test_suite_on_unencodable (cases : list TestCase) :
  out CheckMark = false -> out BallotX = false ->
  g_logger G <> None -> cases <> [] ->
  run_test_suite_on out G cases = Raised "UnicodeEncodeError".
Proof.
  intros Hc Hx Hl Hn. unfold run_test_suite_on, print_str.
  do 3 (apply and_then_unencodable; [apply print_returns_or_unencodable | intros _]).
  apply and_then_unencodable; [apply write_returns_or_unencodable | intros _].
  unfold use_logger. destruct (g_logger G); [|congruence]. cbn [and_then].
  apply and_then_raised. destruct cases as [|test cases]; [congruence|].
  cbn [run_loop]. apply and_then_raised.
  now apply run_iteration_unencodable.
Qed.

Lemma run_iteration_without_multi_word (i : nat) (tally : Tally) (test : TestCase) :
  run_iteration out (without_multi_word G) i tally test = run_iteration out G i tally test.
Proof.
  unfold run_iteration, run_case, passed_test.
  now rewrite !without_multi_word_same_result.
Qed.

Lemma run_loop_without_multi_word (cases : list TestCase) (i : nat) (tally : Tally) :
  run_loop out (without_multi_word G) i cases tally = run_loop out G i cases tally.
Proof.
  revert i tally. induction cases as [|test cases IH]; intros i tally; cbn [run_loop];
    [reflexivity|].
  rewrite run_iteration_without_multi_word.
  destruct (run_iteration out G i tally test); cbn [and_then]; [apply IH | reflexivity].
Qed.

Lemma run_test_suite_on_without_multi_word (cases : list TestCase) :
  run_test_suite_on out (without_multi_word G) cases = run_test_suite_on out G cases.
Proof.
  unfold run_test_suite_on. now rewrite run_loop_without_multi_word.
Qed.

Lemma show_configuration_latin :
  encodes_latin out -> g_logger G <> None -> show_configuration out G = Returned tt.
Proof.
  intros H Hl. unfold show_configuration, use_logger.
  destruct (g_logger G); [|congruence]. cbn [and_then].
  rewrite !(print_str_latin out _ H). cbn [and_then].
  apply (print_empty_latin out H).
Qed.

Lemma show_configuration_returns_or_unencodable :
  g_logger G <> None -> returns_or_unencodable (show_configuration out G).
Proof.
  intros Hl. unfold show_configuration, use_logger, print_str.
  destruct (g_logger G); [|congruence]. cbn [and_then].
  do 3 (apply and_then_returns_or_unencodable;
        [apply print_returns_or_unencodable | intros _]).
  apply write_returns_or_unencodable.
Qed.

End Loop.

Lemma passed_test_same_sets (G G' : Globals) (test : TestCase) :
  same_word_sets G G' -> passed_test G test = passed_test G' test.
Proof.
  intros (E1 & E2 & E3). unfold passed_test.
  now rewrite (same_sets_same_result G G' _ _ E1 E2 E3).
Qed.

Lemma setup_logging_same_sets (G : Globals) : same_word_sets (setup_logging G) G.
Proof. split; [|split]; reflexivity. Qed.

Lemma all_cases_pass : forallb (passed_test module_globals) test_cases = true.
Proof. vm_compute. reflexivity. Qed.

Lemma all_cases_pass_same_sets (G : Globals) :
  same_word_sets G module_globals -> forallb (passed_test G) test_cases = true.
Proof.
  intros S.
  rewrite (forallb_agree (passed_test G) (passed_test module_globals));
    [exact all_cases_pass|].
  intros test _. now apply passed_test_same_sets.
Qed.

(** X10. On a standard output whose encoding has every character, with
    [logger] bound and at least one case, the suite returns (it raises
    nothing) whether every case got its expected action; the two counters
    add up to the number of cases, and [passed] counts the cases that got
    their expected action. *)
Theorem suite_counts (out : Stdout) (G : Globals) (cases : list TestCase) :
  encodes_all out ->
  g_logger G <> None ->
  cases <> [] ->
  run_test_suite_on out G cases = Returned (forallb (passed_test G) cases)
  /\ (passed (run_cases G cases) + failed (run_cases G cases) = length cases)%nat
  /\ passed (run_cases G cases) = length (List.filter (passed_test G) cases).
Proof.
  intros Ho Hl Hc. split; [|split].
  - now apply run_test_suite_on_encodes_all.
  - unfold run_cases.
    destruct (run_case_fold G cases {| passed := 0; failed := 0 |}) as [_ S].
    cbn [passed failed] in S. lia.
  - unfold run_cases.
    destruct (run_case_fold G cases {| passed := 0; failed := 0 |}) as [P _].
    cbn [passed failed] in P. lia.
Qed.

Lemma suite_counts_witness :
  encodes_all utf8_stdout
  /\ g_logger (setup_logging module_globals) <> None
  /\ test_cases <> []
  /\ (run_test_suite_on utf8_stdout (setup_logging module_globals) test_cases
      = Returned (forallb (passed_test (setup_logging module_globals)) test_cases)
      /\ (passed (run_cases (setup_logging module_globals) test_cases)
          + failed (run_cases (setup_logging module_globals) test_cases)
          = length test_cases)%nat
      /\ passed (run_cases (setup_logging module_globals) test_cases)
         = length (List.filter (passed_test (setup_logging module_globals)) test_cases)).
Proof.
  assert (Ho : encodes_all utf8_stdout) by (intros g; reflexivity).
  assert (Hl : g_logger (setup_logging module_globals) <> None) by discriminate.
  assert (Hc : test_cases <> []) by discriminate.
  split; [exact Ho | split; [exact Hl | split; [exact Hc|]]].
  exact (suite_counts utf8_stdout (setup_logging module_globals) test_cases Ho Hl Hc).
Defined.

Lemma main_encodes_all (out : Stdout) (G : Globals) :
  encodes_all out ->
  snd (main out G)
  = Returned (if forallb (passed_test (setup_logging G)) test_cases then 0 else 1).
Proof.
  intros Ho. unfold main, run_test_suite. cbn [snd].
  assert (Hl : g_logger (setup_logging G) <> None) by discriminate.
  rewrite (show_configuration_latin out (setup_logging G)
             (fun c => Ho (Latin c)) Hl).
  rewrite (run_test_suite_on_encodes_all out (setup_logging G) test_cases Ho Hl)
    by discriminate.
  reflexivity.
Qed.

(** X11. On a standard output whose encoding has every character, the main
    block exits with 0 or with 1 whatever the namespace it starts from, and
    with the configured word sets all ten scenarios get their expected
    action and it exits with 0.  On a standard output whose encoding has
    neither status mark, it dies of UnicodeEncodeError whatever the word
    sets are. *)
Theorem main_exit_code (out : Stdout) (G : Globals) :
  (encodes_all out ->
   (snd (main out G) = Returned 0 \/ snd (main out G) = Returned 1)
   /\ (same_word_sets G module_globals ->
       snd (main out G) = Returned 0
       /\ run_cases G test_cases = {| passed := 10; failed := 0 |}))
  /\ (out CheckMark = false -> out BallotX = false ->
      snd (main out G) = Raised "UnicodeEncodeError").
Proof.
  split.
  - intros Ho. rewrite (main_encodes_all out G Ho). split.
    + destruct (forallb _ test_cases); [now left | now right].
    + intros S. split.
      * rewrite all_cases_pass_same_sets; [reflexivity|].
        destruct S as (E1 & E2 & E3).
        split; [exact E1 | split; [exact E2 | exact E3]].
      * rewrite (run_cases_all_pass G test_cases (all_cases_pass_same_sets G S)).
        reflexivity.
  - intros Hc Hx. unfold main, run_test_suite. cbn [snd].
    assert (Hl : g_logger (setup_logging G) <> None) by discriminate.
    change (use_logger (setup_logging G)) with (Returned (A:=unit) tt).
    cbn [and_then].
    apply and_then_unencodable;
      [now apply show_configuration_returns_or_unencodable | intros _].
    apply and_then_raised.
    apply run_test_suite_on_unencodable; [exact Hc | exact Hx | exact Hl | discriminate].
Qed.

Example main_on_two_outputs :
  snd (main utf8_stdout module_globals) = Returned 0
  /\ snd (main ascii_stdout module_globals) = Raised "UnicodeEncodeError".
Proof. split; vm_compute; reflexivity. Qed.

(** X13. The suite cannot tell whether the multi-word entries are in the
    word sets: its outcome is the same without them, on any standard output
    and for any list of cases; so is the outcome of the main block on a
    standard output whose encoding has every code point below 256 (on a
    narrower one [show_configuration], which prints the entries, can raise
    for one namespace and not for the other). *)
Theorem suite_blind_to_multi_word (out : Stdout) (G : Globals) (cases : list TestCase) :
  run_test_suite_on out (without_multi_word G) cases = run_test_suite_on out G cases
  /\ (encodes_latin out ->
      snd (main out (without_multi_word G)) = snd (main out G)).
Proof.
  split; [apply run_test_suite_on_without_multi_word|].
  intros Ho. unfold main, run_test_suite. cbn [snd].
  change (setup_logging (without_multi_word G))
    with (without_multi_word (setup_logging G)).
  assert (Hl : g_logger (setup_logging G) <> None) by discriminate.
  rewrite (show_configuration_latin out (without_multi_word (setup_logging G)) Ho Hl).
  rewrite (show_configuration_latin out (setup_logging G) Ho Hl).
  now rewrite run_test_suite_on_without_multi_word.
Qed.

(** On an output that has the two marks and ASCII only, the main block dies
    in [show_configuration] because of a multi-word entry with an accented
    letter, and exits with 0 once the entry is removed. *)
Example main_sees_unencodable_entry :
  snd (main marks_and_ascii_stdout accented_globals) = Raised "UnicodeEncodeError"
  /\ snd (main marks_and_ascii_stdout (without_multi_word accented_globals)) = Returned 0.
Proof. split; vm_compute; reflexivity. Qed.

(** ** The name of the log file *)

Lemma digit_inj (a b : Z) : digit a = digit b -> a mod 10 = b mod 10.
Proof.
  unfold digit. intros E. apply (f_equal N_of_ascii) in E.
  pose proof (Z.mod_pos_bound a 10 ltac:(lia)) as Ha.
  pose proof (Z.mod_pos_bound b 10 ltac:(lia)) as Hb.
  rewrite !N_ascii_embedding in E by lia. lia.
Qed.

Lemma pad2_inj (a b : Z) :
  0 <= a < 100 -> 0 <= b < 100 -> pad2 a = pad2 b -> a = b.
Proof.
  intros Ha Hb E. unfold pad2 in E. injection E as E1 E0.
  apply digit_inj in E1, E0.
  pose proof (Z.div_mod a 10 ltac:(lia)). pose proof (Z.div_mod b 10 ltac:(lia)).
  assert (0 <= a / 10 < 10) by (split; [apply Z.div_pos | apply Z.div_lt_upper_bound]; lia).
  assert (0 <= b / 10 < 10) by (split; [apply Z.div_pos | apply Z.div_lt_upper_bound]; lia).
  rewrite !Z.mod_small in E1 by lia. lia.
Qed.

Lemma pad4_inj (a b : Z) :
  0 <= a < 10000 -> 0 <= b < 10000 -> pad4 a = pad4 b -> a = b.
Proof.
  intros Ha Hb E. unfold pad4, pad2 in E. injection E as E3 E2 E1 E0.
  apply digit_inj in E3, E2, E1, E0.
  revert E3 E2 E1 E0. Z.div_mod_to_equations. lia.
Qed.

Lemma log_filename_fields (d : DateTime) :
  log_filename d
  = "test_results_" +:+ pad4 (dt_year d) +:+ pad2 (dt_month d) +:+ pad2 (dt_day d)
    +:+ "_" +:+ pad2 (dt_hour d) +:+ pad2 (dt_minute d) +:+ pad2 (dt_second d) +:+ ".log".
Proof. reflexivity. Qed.

(** X14. The log file is never the [test_results.log] that the docstring of
    the module names: its name is [test_results_], fifteen characters of
    time stamp and [.log], 32 characters in all. *)
Theorem log_filename_shape (now : DateTime) :
  valid_datetime now ->
  String.length (log_filename now) = 32%nat
  /\ log_filename now <> "test_results.log"
  /\ String.prefix "test_results_" (log_filename now) = true
  /\ String.get 21 (log_filename now) = Some "_"%char.
Proof.
  intros _. destruct now as [y mo d h mi s].
  repeat split; try reflexivity.
  intros E. apply (f_equal String.length) in E. discriminate E.
Qed.

Lemma log_filename_shape_witness :
  valid_datetime {| dt_year := 2025; dt_month := 1; dt_day := 9;
                    dt_hour := 7; dt_minute := 5; dt_second := 0 |}
  /\ (String.length (log_filename {| dt_year := 2025; dt_month := 1; dt_day := 9;
                                     dt_hour := 7; dt_minute := 5; dt_second := 0 |})
      = 32%nat
      /\ log_filename {| dt_year := 2025; dt_month := 1; dt_day := 9;
                         dt_hour := 7; dt_minute := 5; dt_second := 0 |}
         <> "test_results.log"
      /\ String.prefix "test_results_"
           (log_filename {| dt_year := 2025; dt_month := 1; dt_day := 9;
                            dt_hour := 7; dt_minute := 5; dt_second := 0 |}) = true
      /\ String.get 21 (log_filename {| dt_year := 2025; dt_month := 1; dt_day := 9;
                                        dt_hour := 7; dt_minute := 5; dt_second := 0 |})
         = Some "_"%char).
Proof.
  assert (V : valid_datetime {| dt_year := 2025; dt_month := 1; dt_day := 9;
                                dt_hour := 7; dt_minute := 5; dt_second := 0 |})
    by (unfold valid_datetime; cbn; lia).
  split; [exact V|].
  exact (log_filename_shape _ V).
Defined.

Example log_filename_example :
  log_filename {| dt_year := 2025; dt_month := 1; dt_day := 9;
                  dt_hour := 7; dt_minute := 5; dt_second := 0 |}
  = "test_results_20250109_070500.log".
Proof. reflexivity. Qed.

(** X15. Two runs started at different seconds write to different log
    files: the name determines the date and the time. *)
Theorem log_filename_injective (d1 d2 : DateTime) :
  valid_datetime d1 -> valid_datetime d2 ->
  log_filename d1 = log_filename d2 -> d1 = d2.
Proof.
  intros (Hy1 & Hmo1 & Hd1 & Hh1 & Hmi1 & Hs1) (Hy2 & Hmo2 & Hd2 & Hh2 & Hmi2 & Hs2) E.
  destruct d1 as [y1 mo1 d1 h1 mi1 s1], d2 as [y2 mo2 d2 h2 mi2 s2].
  cbn [dt_year dt_month dt_day dt_hour dt_minute dt_second] in *.
  cbv [log_filename strftime_stamp pad4 pad2 String.append
       dt_year dt_month dt_day dt_hour dt_minute dt_second] in E.
  injection E as Y3 Y2 Y1 Y0 M1 M0 D1 D0 H1 H0 I1 I0 S1 S0.
  assert (y1 = y2)
    by (apply pad4_inj; [lia | lia | unfold pad4, pad2; congruence]).
  assert (mo1 = mo2) by (apply pad2_inj; [lia | lia | unfold pad2; congruence]).
  assert (d1 = d2) by (apply pad2_inj; [lia | lia | unfold pad2; congruence]).
  assert (h1 = h2) by (apply pad2_inj; [lia | lia | unfold pad2; congruence]).
  assert (mi1 = mi2) by (apply pad2_inj; [lia | lia | unfold pad2; congruence]).
  assert (s1 = s2) by (apply pad2_inj; [lia | lia | unfold pad2; congruence]).
  congruence.
Qed.

Lemma log_filename_injective_witness :
  valid_datetime {| dt_year := 2025; dt_month := 12; dt_day := 31;
                    dt_hour := 23; dt_minute := 59; dt_second := 59 |}
  /\ log_filename {| dt_year := 2025; dt_month := 12; dt_day := 31;
                     dt_hour := 23; dt_minute := 59; dt_second := 59 |}
     = log_filename {| dt_year := 2025; dt_month := 12; dt_day := 31;
                       dt_hour := 23; dt_minute := 59; dt_second := 59 |}
  /\ {| dt_year := 2025; dt_month := 12; dt_day := 31;
        dt_hour := 23; dt_minute := 59; dt_second := 59 |}
     = {| dt_year := 2025; dt_month := 12; dt_day := 31;
          dt_hour := 23; dt_minute := 59; dt_second := 59 |}.
Proof.
  assert (V : valid_datetime {| dt_year := 2025; dt_month := 12; dt_day := 31;
                                dt_hour := 23; dt_minute := 59; dt_second := 59 |})
    by (unfold valid_datetime; cbn; lia).
  split; [exact V | split; [reflexivity|]].
  exact (log_filename_injective _ _ V V eq_refl).
Defined.

(** ** The silent agent *)

(** X16. While the agent is silent the word sets are not consulted: the
    action and the reason are the same under any two namespaces. *)
Theorem silent_ignores_word_sets (G G' : Globals) (t : string) :
  test_filter_logic G t false = test_filter_logic G' t false.
Proof.
  destruct (tokens_of t) as [|t0 ts] eqn:T.
  - now rewrite !rule_no_tokens.
  - assert (N : tokens_of t <> []) by (rewrite T; discriminate).
    now rewrite !rule_silent.
Qed.
